(** * run_engine_multi: batch runner for the biomechanics engine

    A shallow embedding of [server/run_engine_multi.py]: folder validation
    and discovery, the per-folder executor [process_folder], the sequential
    and the thread-pool orchestrators, the report writer and [main].

    Conventions of the embedding.
    - A path is the list of its components, outermost first (what pathlib
      calls [parts]); every path is resolved against one root directory, and
      paths are taken in normal form (no trailing separator, no empty or dot
      component, [..] is an ordinary name).
    - The filesystem is a tree; a file has no children by construction.
    - Python statements run in a state-and-exception monad [M]: a statement
      returns, raises, or leaves through [sys.exit].
    - [time.time()] and [datetime.now()] read successive values of a clock
      stream given as integers (clock ticks); the literal [0.0] is [0].
    - The external command ([subprocess.run]) is an oracle of the command
      line and of the filesystem: it may rewrite the filesystem at will.
    - Console output is kept as a list of structured messages; the colour
      and the timestamp prefix that [print_status] adds are left out, and
      the bare [print] calls of [main] are kept with the level their text
      starts with.
    - The thread pool is modelled with its tasks run one at a time, in an
      order of completion given by a schedule; interleavings of the
      filesystem actions of two tasks are outside the embedding. *)

From Stdlib Require Import String List ZArith Lia Bool Ascii Permutation.
Import ListNotations.
Open Scope string_scope.
Open Scope list_scope.

(* ------------------------------------------------------------------ *)
(** ** Strings *)

Module Str.

(** [s.endswith(suffix)] *)
Definition endswith (s suffix : string) : bool :=
  (String.length suffix <=? String.length s)%nat
  && String.eqb
       (substring (String.length s - String.length suffix)
                  (String.length suffix) s)
       suffix.

(** [s[:-n]] for a positive [n] *)
Definition drop_last (n : nat) (s : string) : string :=
  substring 0 (String.length s - n) s.

(** Pieces of [s] between separators [/]; [cur] is the piece being read. *)
Fixpoint split_slash (s cur : string) : list string :=
  match s with
  | EmptyString => [cur]
  | String c s' =>
      if Ascii.eqb c "/"%char then cur :: split_slash s' EmptyString
      else split_slash s' (cur ++ String c EmptyString)%string
  end.

(** Truthiness of a Python string. *)
Definition nonempty (s : string) : bool :=
  match s with EmptyString => false | _ => true end.

End Str.

(* ------------------------------------------------------------------ *)
(** ** Paths *)

Definition Path := list string.

Module PathOps.

(** Components of a relative path written as a string: empty and dot
    pieces are dropped, as pathlib does. *)
Definition parts_of (s : string) : Path :=
  filter (fun x => negb (String.eqb x "" || String.eqb x "."))
         (Str.split_slash s EmptyString).

(** [p / s] for a relative right operand. *)
Definition join (p : Path) (s : string) : Path := p ++ parts_of s.

(** [os.path.basename]; the empty path is the directory [.] itself. *)
Definition basename (p : Path) : string := last p ".".

(** [p.parent] *)
Definition parent (p : Path) : Path := removelast p.

(** [str(p)] *)
Definition to_str (p : Path) : string :=
  match p with
  | [] => "."
  | _ => String.concat "/" p
  end.

End PathOps.

Notation "p // s" := (PathOps.join p s) (at level 40, left associativity).

(* ------------------------------------------------------------------ *)
(** ** Exceptions *)

(** The ways a filesystem call fails (the [OSError] subclasses raised). *)
Inductive OsErr : Type :=
| FileExistsError
| FileNotFoundError
| NotADirectoryError
| IsADirectoryError
| InvalidArgument.

(** The exceptions the script can meet.  Where the script takes [str(e)],
    the embedding keeps [e] itself. *)
Inductive Exn : Type :=
| OSError (kind : OsErr) (p : Path)
| CalledProcessError (returncode : Z) (stdout stderr : string)
| ValueError (msg : string)
| OtherError (msg : string).

(* ------------------------------------------------------------------ *)
(** ** Results, configuration and report *)

(** One entry of [self.results]: the dict with keys [folder], [success],
    [duration], [timestamp] and, on the pool's exception path only,
    [error]. *)
Record Result : Type := mkResult {
  r_folder : string;
  r_success : bool;
  r_duration : Z;
  r_error : option Exn;
  r_timestamp : Z
}.

(** The attributes [__init__] copies from the parsed arguments. *)
Record Config : Type := mkConfig {
  parallel : bool;
  use_docker : bool;
  output_dir : Path;
  dry_run : bool;
  continue_on_error : bool;
  docker_image : string;
  engine_script : string;
  folders : list Path
}.

(** The [configuration] object of the report. *)
Record ConfigSnapshot : Type := mkSnapshot {
  c_parallel : bool;
  c_docker : bool;
  c_dry_run : bool;
  c_continue_on_error : bool;
  c_docker_image : option string
}.

(** The [summary] dict that [save_results] dumps. *)
Record Summary : Type := mkSummary {
  total_folders : nat;
  successful : nat;
  failed : nat;
  total_duration : Z;
  configuration : ConfigSnapshot;
  s_results : list Result;
  s_timestamp : Z
}.

(* ------------------------------------------------------------------ *)
(** ** The filesystem *)

Inductive Content : Type :=
| Blob (id : nat)            (* a file whose bytes are of no interest *)
| Report (s : Summary).      (* processing_results.json *)

#[warnings="-register-all"]
Inductive Node : Type :=
| File (c : Content)
| Dir (entries : list (string * Node)).

Module Fs.

Fixpoint assoc (name : string) (es : list (string * Node)) : option Node :=
  match es with
  | [] => None
  | (k, n) :: es' => if String.eqb k name then Some n else assoc name es'
  end.

(** Replace the entry [name], or add it after the others. *)
Fixpoint upsert (name : string) (n : Node) (es : list (string * Node))
  : list (string * Node) :=
  match es with
  | [] => [(name, n)]
  | (k, m) :: es' =>
      if String.eqb k name then (k, n) :: es'
      else (k, m) :: upsert name n es'
  end.

Definition without (name : string) (es : list (string * Node))
  : list (string * Node) :=
  filter (fun e => negb (String.eqb (fst e) name)) es.

Fixpoint lookup (p : Path) (n : Node) : option Node :=
  match p with
  | [] => Some n
  | c :: p' =>
      match n with
      | File _ => None
      | Dir es =>
          match assoc c es with
          | Some m => lookup p' m
          | None => None
          end
      end
  end.

Definition exists_ (p : Path) (fs : Node) : bool :=
  match lookup p fs with Some _ => true | None => false end.

Definition is_dir (p : Path) (fs : Node) : bool :=
  match lookup p fs with Some (Dir _) => true | _ => false end.

Definition is_file (p : Path) (fs : Node) : bool :=
  match lookup p fs with Some (File _) => true | _ => false end.

(** Put [m] at [p], creating the missing directories on the way. *)
Fixpoint put (p : Path) (m : Node) (n : Node) : OsErr + Node :=
  match p with
  | [] => inr m
  | c :: p' =>
      match n with
      | File _ => inl NotADirectoryError
      | Dir es =>
          let child :=
            match assoc c es with Some k => k | None => Dir [] end in
          match put p' m child with
          | inr k' => inr (Dir (upsert c k' es))
          | inl e => inl e
          end
      end
  end.

(** [Path.mkdir(parents=True, exist_ok=True)] *)
Definition mkdir_p (p : Path) (fs : Node) : OsErr + Node :=
  match lookup p fs with
  | Some (Dir _) => inr fs
  | Some (File _) => inl FileExistsError
  | None => put p (Dir []) fs
  end.

Fixpoint remove (p : Path) (n : Node) : OsErr + Node :=
  match p with
  | [] => inl InvalidArgument
  | c :: p' =>
      match n with
      | File _ => inl NotADirectoryError
      | Dir es =>
          match assoc c es with
          | None => inl FileNotFoundError
          | Some m =>
              match p' with
              | [] => inr (Dir (without c es))
              | _ =>
                  match remove p' m with
                  | inr m' => inr (Dir (upsert c m' es))
                  | inl e => inl e
                  end
              end
          end
      end
  end.

(** [shutil.rmtree(p)] *)
Definition rmtree (p : Path) (fs : Node) : OsErr + Node :=
  match lookup p fs with
  | Some (Dir _) => remove p fs
  | Some (File _) => inl NotADirectoryError
  | None => inl FileNotFoundError
  end.

(** [shutil.copytree(src, dst)]: the subtree at [src], as it is when the
    call is made, is placed at [dst], which must not exist. *)
Definition copytree (src dst : Path) (fs : Node) : OsErr + Node :=
  match lookup src fs with
  | None => inl FileNotFoundError
  | Some (File _) => inl NotADirectoryError
  | Some (Dir es) =>
      match lookup dst fs with
      | Some _ => inl FileExistsError
      | None => put dst (Dir es) fs
      end
  end.

(** [open(p, 'w')] followed by the dump of [c]. *)
Definition write_file (p : Path) (c : Content) (fs : Node) : OsErr + Node :=
  match lookup p fs with
  | Some (Dir _) => inl IsADirectoryError
  | _ =>
      match lookup (PathOps.parent p) fs with
      | Some (Dir _) => put p (File c) fs
      | Some (File _) => inl NotADirectoryError
      | None => inl FileNotFoundError
      end
  end.

End Fs.

(* ------------------------------------------------------------------ *)
(** ** Console messages and observable actions *)

(** What [subprocess.run(cmd, capture_output=True, text=True)] yields
    before [check=True] is applied. *)
Inductive ProcResult : Type :=
| Completed (returncode : Z) (stdout stderr : string)
| Failed (e : Exn).

Inductive Level : Type := INFO | SUCCESS | ERROR | WARNING.

(** The texts the script prints, with the values they interpolate.  A fault
    [e] stands for its description [str(e)]. *)
Inductive Text : Type :=
| TProcessing (folder_path : Path)
| TCopying (src dst : Path)
| TUsingDirectly (folder_path : Path)
| TDryRunWould (working_folder : Path)
| TDryRunCommand (text : string)
| TRunningDocker
| TRunningLocal
| TCompleted (name : string)
| TProcessingTime (name : string) (d : Z)
| TFailedToProcess (name : string)
| TReturnCode (rc : Z)
| TStdout (out : string)
| TStderr (err : string)
| TUnexpected (name : string) (e : Exn)
| TStartParallel (n : nat)
| TParallelCompleted (name : string)
| TParallelFailed (name : string)
| TParallelException (folder : Path) (e : Exn)
| TStartSequential (n : nat)
| TStopping (name : string)
| TSequentialDone (ok ko : nat)
| TResultsSaved (file : Path)
| TRule
| TSummaryTitle
| TTotalFolders (n : nat)
| TSuccessful (n : nat)
| TFailedCount (n : nat)
| TTotalTime (d : Z)
| TFailedFolders
| TFailedFolder (name : string)
| TConfiguration
| TCfgParallel (b : bool)
| TCfgDocker (b : bool)
| TCfgOutputDir (p : Path)
| TCfgDryRun (b : bool)
| TCfgContinue (b : bool)
| TCfgImage (image : string)
| TCfgCount (n : nat)
| TFolderMissing (p : Path)
| TNotADirectory (p : Path)
| TSomeFailed
| TAllSucceeded
| TNoValidIn (p : Path)
| TPathMissing (p : Path)
| TNoValidAtAll.

Definition Msg : Type := Level * Text.

(** Calls that leave the process: filesystem mutations and invocations of
    the external command, in the order they are issued. *)
Inductive Event : Type :=
| EvMkdir (p : Path)
| EvRmtree (p : Path)
| EvCopytree (src dst : Path)
| EvWrite (p : Path) (c : Content)
| EvRun (cmd : list string).

Definition is_write (e : Event) : bool :=
  match e with EvWrite _ _ => true | _ => false end.

(* ------------------------------------------------------------------ *)
(** ** Program state and the monad of statements *)

Record State : Type := mkState {
  fs : Node;                 (* the filesystem *)
  ticks : nat;               (* clock readings taken so far *)
  log : list Msg;            (* console output, oldest first *)
  events : list Event;       (* actions issued, oldest first *)
  results : list Result      (* self.results *)
}.

Inductive Outcome (A : Type) : Type :=
| Ret (a : A)
| Raise (e : Exn)
| Exit (code : Z).

Arguments Ret {A} a.
Arguments Raise {A} e.
Arguments Exit {A} code.

Definition M (A : Type) : Type := State -> Outcome A * State.

Definition ret {A} (a : A) : M A := fun s => (Ret a, s).

Definition bind {A B} (m : M A) (k : A -> M B) : M B :=
  fun s =>
    match m s with
    | (Ret a, s') => k a s'
    | (Raise e, s') => (Raise e, s')
    | (Exit c, s') => (Exit c, s')
    end.

Declare Scope monad_scope.
Delimit Scope monad_scope with M.
Notation "x <- m ;; k" := (bind m (fun x => k))
  (at level 61, m at next level, right associativity) : monad_scope.
Notation "m ;; k" := (bind m (fun _ => k))
  (at level 61, right associativity) : monad_scope.
Open Scope monad_scope.

Definition raise {A} (e : Exn) : M A := fun s => (Raise e, s).

(** [sys.exit(code)]: not an [Exception], so no handler below stops it. *)
Definition sys_exit {A} (code : Z) : M A := fun s => (Exit code, s).

(** [try: body except Exception as e: handler e] *)
Definition try_except {A} (body : M A) (handler : Exn -> M A) : M A :=
  fun s =>
    match body s with
    | (Raise e, s') => handler e s'
    | r => r
    end.

Definition gets {A} (f : State -> A) : M A := fun s => (Ret (f s), s).

Definition with_fs (s : State) (fs' : Node) : State :=
  mkState fs' (ticks s) (log s) (events s) (results s).

Definition emit (e : Event) (s : State) : State :=
  mkState (fs s) (ticks s) (log s) (events s ++ [e]) (results s).

Definition print (lvl : Level) (t : Text) : M unit :=
  fun s =>
    (Ret tt, mkState (fs s) (ticks s) (log s ++ [(lvl, t)]) (events s) (results s)).

Definition print_success := print SUCCESS.
Definition print_error := print ERROR.
Definition print_warning := print WARNING.
Definition print_info := print INFO.

(** [self.results.append(r)] *)
Definition append_result (r : Result) : M unit :=
  fun s =>
    (Ret tt, mkState (fs s) (ticks s) (log s) (events s) (results s ++ [r])).

(** [self.results = []] *)
Definition reset_results : M unit :=
  fun s => (Ret tt, mkState (fs s) (ticks s) (log s) (events s) []).

(** A filesystem call: it is recorded, then it changes the tree or raises. *)
Definition fs_call (ev : Event) (op : Node -> OsErr + Node) (p : Path) : M unit :=
  fun s =>
    let s1 := emit ev s in
    match op (fs s) with
    | inr fs' => (Ret tt, with_fs s1 fs')
    | inl k => (Raise (OSError k p), s1)
    end.

Definition mkdir (p : Path) : M unit := fs_call (EvMkdir p) (Fs.mkdir_p p) p.
Definition rmtree (p : Path) : M unit := fs_call (EvRmtree p) (Fs.rmtree p) p.
(** [shutil.copytree(src, dst)]: a fault met while the source is listed
    names [src]; a fault met while the destination is made names [dst]. *)
Definition copytree (src dst : Path) : M unit :=
  fun s =>
    fs_call (EvCopytree src dst) (Fs.copytree src dst)
            (if Fs.is_dir src (fs s) then dst else src) s.
Definition write_file (p : Path) (c : Content) : M unit :=
  fs_call (EvWrite p c) (Fs.write_file p c) p.

(* ------------------------------------------------------------------ *)
(** ** Folder validation and discovery (module-level functions) *)

Definition indicators : list string :=
  ["_subject.json"; "unscaled_generic.osim"; "trials/"].

(** [is_valid_test_data_folder]: the loop counts the indicators found. *)
Definition is_valid_test_data_folder (folder_path : Path) (fs : Node) : bool :=
  let found_indicators :=
    fold_left
      (fun found indicator =>
         if Fs.exists_ (folder_path // indicator) fs then S found else found)
      indicators 0%nat in
  (2 <=? found_indicators)%nat.

(** The loop of [find_test_data_folders] over [directory.iterdir()], whose
    items are the entries of the directory in directory order. *)
Fixpoint scan_items (directory : Path) (names : list string) (fs : Node)
  : list Path :=
  match names with
  | [] => []
  | name :: names' =>
      let item := directory ++ [name] in
      if Fs.is_dir item fs && is_valid_test_data_folder item fs
      then item :: scan_items directory names' fs
      else scan_items directory names' fs
  end.

(** [find_test_data_folders]; [iterdir] raises on a regular file. *)
Definition find_test_data_folders (directory : Path) : M (list Path) :=
  fun s =>
    match Fs.lookup directory (fs s) with
    | None => (Ret [], s)
    | Some (File _) => (Raise (OSError NotADirectoryError directory), s)
    | Some (Dir es) => (Ret (scan_items directory (map fst es) (fs s)), s)
    end.

(** The loop of [main] over [args.paths]; [all_folders] is the list built
    so far. *)
Fixpoint resolve_paths (paths : list Path) (all_folders : list Path)
  : M (list Path) :=
  match paths with
  | [] => ret all_folders
  | path :: rest =>
      isfile <- gets (fun s => Fs.is_file path (fs s)) ;;
      if isfile then resolve_paths rest all_folders
      else
        isdir <- gets (fun s => Fs.is_dir path (fs s)) ;;
        if isdir then
          valid <- gets (fun s => is_valid_test_data_folder path (fs s)) ;;
          if valid then resolve_paths rest (all_folders ++ [path])
          else
            found_folders <- find_test_data_folders path ;;
            match found_folders with
            | _ :: _ => resolve_paths rest (all_folders ++ found_folders)
            | [] =>
                print WARNING (TNoValidIn path) ;;
                resolve_paths rest all_folders
            end
        else
          print WARNING (TPathMissing path) ;;
          resolve_paths rest all_folders
  end.

(* ------------------------------------------------------------------ *)
(** ** Command-line arguments and small list helpers *)

(** The namespace [parser.parse_args()] returns. *)
Record Args : Type := mkArgs {
  a_paths : list Path;
  a_parallel : bool;
  a_docker : bool;
  a_output_dir : Path;
  a_dry_run : bool;
  a_continue_on_error : bool;
  a_docker_image : string;
  a_engine_script : string
}.

(** The list without its [k]-th element. *)
Fixpoint remove_nth {A : Type} (k : nat) (l : list A) : list A :=
  match l, k with
  | [], _ => []
  | _ :: l', O => l'
  | x :: l', S k' => x :: remove_nth k' l'
  end.

(** [sum(1 for r in rs if keep r)] *)
Definition count_where (keep : Result -> bool) (rs : list Result) : nat :=
  list_sum (map (fun _ => 1%nat) (filter keep rs)).

(** [sum(r['duration'] for r in rs)] *)
Definition sum_durations (rs : list Result) : Z :=
  fold_left Z.add (map r_duration rs) 0%Z.

(* ------------------------------------------------------------------ *)
(** ** MultiEngineRunner *)

Section Runner.

(** The external command: what running [cmd] on a filesystem returns and
    the filesystem it leaves. *)
Variable engine : list string -> Node -> ProcResult * Node.

(** The clock: the value of the [n]-th reading. *)
Variable clock : nat -> Z.

(** [time.time()] and [datetime.now()] *)
Definition now : M Z :=
  fun s =>
    (Ret (clock (ticks s)),
     mkState (fs s) (S (ticks s)) (log s) (events s) (results s)).

(** [subprocess.run(cmd, check=True, capture_output=True, text=True)] *)
Definition subprocess_run (cmd : list string) : M unit :=
  fun s =>
    let s1 := emit (EvRun cmd) s in
    match engine cmd (fs s) with
    | (Completed rc out err, fs') =>
        if (rc =? 0)%Z then (Ret tt, with_fs s1 fs')
        else (Raise (CalledProcessError rc out err), with_fs s1 fs')
    | (Failed e, fs') => (Raise e, with_fs s1 fs')
    end.

Definition docker_cmd (cfg : Config) (working_folder : Path) : list string :=
  ["docker"; "run"; "--rm"; "-it"; "--platform"; "linux/amd64";
   "-v"; (PathOps.to_str working_folder ++ ":/test_data")%string;
   docker_image cfg; "python3"; engine_script cfg; "/test_data"].

Definition local_cmd (cfg : Config) (working_folder : Path) : list string :=
  ["python3"; engine_script cfg; PathOps.to_str working_folder].

(** The command line of the configured backend. *)
Definition engine_cmd (cfg : Config) (working_folder : Path) : list string :=
  if use_docker cfg then docker_cmd cfg working_folder
  else local_cmd cfg working_folder.

(** [__init__]: [self.results = []] and the output directory is made. *)
Definition init (cfg : Config) : M unit :=
  reset_results ;;
  mkdir (output_dir cfg).

Fixpoint validate_folders_loop (fl : list Path) : M bool :=
  match fl with
  | [] => ret true
  | folder :: rest =>
      ex <- gets (fun s => Fs.exists_ folder (fs s)) ;;
      if negb ex then
        print_error (TFolderMissing folder) ;; ret false
      else
        isd <- gets (fun s => Fs.is_dir folder (fs s)) ;;
        if negb isd then
          print_error (TNotADirectory folder) ;; ret false
        else validate_folders_loop rest
  end.

Definition validate_folders (cfg : Config) : M bool :=
  validate_folders_loop (folders cfg).

(** The first part of [process_folder], up to the choice of
    [working_folder], which is its value: the output directory of the
    folder is made, and a folder named [..._original] is copied. *)
Definition prepare (cfg : Config) (folder_path : Path) : M Path :=
  let folder_name := PathOps.basename folder_path in
  let output_path := output_dir cfg // folder_name in
  print_info (TProcessing folder_path) ;;
  mkdir output_path ;;
  if Str.endswith folder_name "_original" then
    let clean_name := Str.drop_last 9 folder_name in
    let working_folder := output_path // clean_name in
    print_info (TCopying folder_path working_folder) ;;
    (if negb (dry_run cfg) then
       ex <- gets (fun s => Fs.exists_ working_folder (fs s)) ;;
       (if ex then rmtree working_folder else ret tt) ;;
       copytree folder_path working_folder
     else ret tt) ;;
    ret working_folder
  else
    print_info (TUsingDirectly folder_path) ;;
    ret folder_path.

(** The second part of [process_folder] when the run is not a dry run:
    the timed and guarded invocation. *)
Definition invoke (cfg : Config) (folder_name : string)
           (working_folder : Path) : M (bool * string * Z) :=
  start_time <- now ;;
  try_except
    ((if use_docker cfg then
        print_info TRunningDocker ;;
        subprocess_run (docker_cmd cfg working_folder)
      else
        print_info TRunningLocal ;;
        subprocess_run (local_cmd cfg working_folder)) ;;
     end_time <- now ;;
     let duration := (end_time - start_time)%Z in
     print_success (TCompleted folder_name) ;;
     print_info (TProcessingTime folder_name duration) ;;
     ret (true, folder_name, duration))
    (fun e =>
       match e with
       | CalledProcessError rc out err =>
           end_time <- now ;;
           let duration := (end_time - start_time)%Z in
           print_error (TFailedToProcess folder_name) ;;
           print_error (TReturnCode rc) ;;
           (if Str.nonempty out then print_error (TStdout out) else ret tt) ;;
           (if Str.nonempty err then print_error (TStderr err) else ret tt) ;;
           ret (false, folder_name, duration)
       | _ =>
           end_time <- now ;;
           let duration := (end_time - start_time)%Z in
           print_error (TUnexpected folder_name e) ;;
           ret (false, folder_name, duration)
       end).

(** The texts that follow [DRY RUN: ] in the second message of a dry run,
    as the two f-strings write them. *)
Definition dry_run_docker_text (cfg : Config) (working_folder : Path)
  : string :=
  ("docker run --rm -it --platform linux/amd64 -v "
   ++ PathOps.to_str working_folder ++ ":/test_data "
   ++ docker_image cfg ++ " python3 " ++ engine_script cfg
   ++ " /test_data")%string.

Definition dry_run_local_text (cfg : Config) (working_folder : Path)
  : string :=
  ("python3 " ++ engine_script cfg ++ " "
   ++ PathOps.to_str working_folder)%string.

(** [process_folder]: the triple (success, folder name, duration). *)
Definition process_folder (cfg : Config) (folder_path : Path)
  : M (bool * string * Z) :=
  let folder_name := PathOps.basename folder_path in
  working_folder <- prepare cfg folder_path ;;
  if dry_run cfg then
    print_info (TDryRunWould working_folder) ;;
    (if use_docker cfg then
       print_info (TDryRunCommand (dry_run_docker_text cfg working_folder))
     else
       print_info (TDryRunCommand (dry_run_local_text cfg working_folder))) ;;
    ret (true, folder_name, 0%Z)
  else invoke cfg folder_name working_folder.

(** The body of the collecting loop for the future of [folder]:
    [future.result()] hands back what the task returned or raised. *)
Definition collect (cfg : Config) (folder : Path) : M unit :=
  try_except
    (r <- process_folder cfg folder ;;
     let '(success, folder_name, duration) := r in
     ts <- now ;;
     append_result (mkResult folder_name success duration None ts) ;;
     if success then print_success (TParallelCompleted folder_name)
     else print_error (TParallelFailed folder_name))
    (fun e =>
       print_error (TParallelException folder e) ;;
       ts <- now ;;
       append_result
         (mkResult (PathOps.to_str folder) false 0%Z (Some e) ts)).

(** The pool and [as_completed].  The tasks are run one at a time: at each
    step the schedule picks, among the [pending] futures, the one that
    completes next, and the collecting loop takes it.  [n] bounds the
    number of steps and is the number of pending futures. *)
Fixpoint pool_loop (cfg : Config) (sched : list nat) (pending : list Path)
         (n : nat) : M unit :=
  match n with
  | O => ret tt
  | S n' =>
      match pending with
      | [] => ret tt
      | first :: _ =>
          let k := (hd 0%nat sched mod length pending)%nat in
          collect cfg (nth k pending first) ;;
          pool_loop cfg (tl sched) (remove_nth k pending) n'
      end
  end.

(** [process_folders_parallel]; the executor refuses [max_workers = 0]. *)
Definition process_folders_parallel (cfg : Config) (sched : list nat)
  : M unit :=
  print_info (TStartParallel (length (folders cfg))) ;;
  if (Nat.min (length (folders cfg)) 4 =? 0)%nat then
    raise (ValueError "max_workers must be greater than 0")
  else pool_loop cfg sched (folders cfg) (length (folders cfg)).

(** The [for] loop of [process_folders_sequential]. *)
Fixpoint sequential_loop (cfg : Config) (fl : list Path)
         (success_count failure_count : nat) : M (nat * nat) :=
  match fl with
  | [] => ret (success_count, failure_count)
  | folder :: rest =>
      r <- process_folder cfg folder ;;
      let '(success, folder_name, duration) := r in
      ts <- now ;;
      append_result (mkResult folder_name success duration None ts) ;;
      if success then
        sequential_loop cfg rest (S success_count) failure_count
      else
        (if negb (continue_on_error cfg) then
           print_error (TStopping folder_name) ;;
           sys_exit 1%Z
         else ret tt) ;;
        sequential_loop cfg rest success_count (S failure_count)
  end.

Definition process_folders_sequential (cfg : Config) : M unit :=
  print_info (TStartSequential (length (folders cfg))) ;;
  counts <- sequential_loop cfg (folders cfg) 0%nat 0%nat ;;
  print_info (TSequentialDone (fst counts) (snd counts)).

Definition results_file (cfg : Config) : Path :=
  output_dir cfg // "processing_results.json".

(** The [summary] dict of [save_results] for the results [rs]. *)
Definition summary_of (cfg : Config) (rs : list Result) (ts : Z) : Summary :=
  mkSummary
    (length (folders cfg))
    (count_where r_success rs)
    (count_where (fun r => negb (r_success r)) rs)
    (sum_durations rs)
    (mkSnapshot (parallel cfg) (use_docker cfg) (dry_run cfg)
                (continue_on_error cfg)
                (if use_docker cfg then Some (docker_image cfg) else None))
    rs ts.

Definition save_results (cfg : Config) : M unit :=
  rs <- gets results ;;
  ts <- now ;;
  write_file (results_file cfg) (Report (summary_of cfg rs ts)) ;;
  print_info (TResultsSaved (results_file cfg)).

Fixpoint print_failed (rs : list Result) : M unit :=
  match rs with
  | [] => ret tt
  | result :: rest =>
      (if negb (r_success result)
       then print_warning (TFailedFolder (r_folder result))
       else ret tt) ;;
      print_failed rest
  end.

Definition print_summary (cfg : Config) : M unit :=
  rs <- gets results ;;
  let successful := count_where r_success rs in
  let failed := (length rs - successful)%nat in
  let total_duration := sum_durations rs in
  print_info TRule ;;
  print_info TSummaryTitle ;;
  print_info TRule ;;
  print_info (TTotalFolders (length (folders cfg))) ;;
  print_info (TSuccessful successful) ;;
  print_info (TFailedCount failed) ;;
  print_info (TTotalTime total_duration) ;;
  (if (0 <? failed)%nat then
     print_warning TFailedFolders ;;
     print_failed rs
   else ret tt) ;;
  print_info TRule.

(** The part of [run] that follows the processing of the folders. *)
Definition report (cfg : Config) : M unit :=
  save_results cfg ;;
  print_summary cfg ;;
  rs <- gets results ;;
  if existsb (fun r => negb (r_success r)) rs
  then print_warning TSomeFailed
  else print_success TAllSucceeded.

(** The part of [run] that processes the folders. *)
Definition process_folders (cfg : Config) (sched : list nat) : M unit :=
  if parallel cfg then process_folders_parallel cfg sched
  else process_folders_sequential cfg.

Definition run (cfg : Config) (sched : list nat) : M unit :=
  print_info TConfiguration ;;
  print_info (TCfgParallel (parallel cfg)) ;;
  print_info (TCfgDocker (use_docker cfg)) ;;
  print_info (TCfgOutputDir (output_dir cfg)) ;;
  print_info (TCfgDryRun (dry_run cfg)) ;;
  print_info (TCfgContinue (continue_on_error cfg)) ;;
  (if use_docker cfg then print_info (TCfgImage (docker_image cfg))
   else ret tt) ;;
  print_info (TCfgCount (length (folders cfg))) ;;
  ok <- validate_folders cfg ;;
  (if negb ok then sys_exit 1%Z else ret tt) ;;
  process_folders cfg sched ;;
  report cfg.

Definition config_of (args : Args) (all_folders : list Path) : Config :=
  mkConfig (a_parallel args) (a_docker args) (a_output_dir args)
           (a_dry_run args) (a_continue_on_error args)
           (a_docker_image args) (a_engine_script args) all_folders.

Definition main (args : Args) (sched : list nat) : M unit :=
  all_folders <- resolve_paths (a_paths args) [] ;;
  (match all_folders with
   | [] => print ERROR TNoValidAtAll ;; sys_exit 1%Z
   | _ :: _ => ret tt
   end) ;;
  let cfg := config_of args all_folders in
  init cfg ;;
  run cfg sched.

End Runner.

(** The status the interpreter hands to the operating system: [0] when
    the script runs to its end, the argument of [sys.exit], and [1] when
    an exception is left uncaught. *)
Definition exit_status {A : Type} (o : Outcome A) : Z :=
  match o with
  | Ret _ => 0%Z
  | Exit code => code
  | Raise _ => 1%Z
  end.

Definition initial_state (fs0 : Node) : State := mkState fs0 0 [] [] [].

(* ------------------------------------------------------------------ *)
(** ** Frame conditions on statements *)

Definition no_writes (new : list Event) : Prop :=
  forallb (fun e => negb (is_write e)) new = true.

(** A statement that leaves [self.results] alone, never calls [sys.exit]
    and writes no file; it may create, remove and copy directories and
    invoke the external command. *)
Definition worker {A} (m : M A) : Prop :=
  forall s o s', m s = (o, s') ->
    results s' = results s /\
    (forall c, o <> Exit c) /\
    exists new, events s' = events s ++ new /\ no_writes new.

(** A statement that only reads the state and prints. *)
Definition quiet {A} (m : M A) : Prop :=
  forall s o s', m s = (o, s') ->
    results s' = results s /\ events s' = events s /\
    fs s' = fs s /\ ticks s' = ticks s /\ exists a, o = Ret a.

(** What a run of an orchestrator adds to the state: results [extra]
    after the earlier ones and actions [new], none of them a write. *)
Definition adds (s s' : State) (extra : list Result) (new : list Event)
  : Prop :=
  results s' = results s ++ extra /\
  events s' = events s ++ new /\ no_writes new.

(* ------------------------------------------------------------------ *)
(** ** Further conditions and the order of the pool *)

(** A statement whose actions all satisfy [allowed]. *)
Definition only_events (allowed : Event -> bool) {A} (m : M A) : Prop :=
  forall s o s', m s = (o, s') ->
    exists new, events s' = events s ++ new /\ forallb allowed new = true.

Definition is_mkdir_or_write (e : Event) : bool :=
  match e with EvMkdir _ | EvWrite _ _ => true | _ => false end.

(** The order in which the pool hands over its futures: the folders that
    [pool_loop] takes, one per step. *)
Fixpoint pool_order (sched : list nat) (pending : list Path) (n : nat)
  : list Path :=
  match n with
  | O => []
  | S n' =>
      match pending with
      | [] => []
      | first :: _ =>
          let k := (hd 0%nat sched mod length pending)%nat in
          nth k pending first
            :: pool_order (tl sched) (remove_nth k pending) n'
      end
  end.


(** The collecting loop over futures taken in a given order. *)
Fixpoint collect_all (engine : list string -> Node -> ProcResult * Node)
         (clock : nat -> Z) (cfg : Config) (order : list Path) : M unit :=
  match order with
  | [] => ret tt
  | folder :: rest =>
      collect engine clock cfg folder ;;
      collect_all engine clock cfg rest
  end.


(* ------------------------------------------------------------------ *)
(** ** Sample inputs *)

Module Demo.

(** A folder with two of the three indicators. *)
Definition unit_dir : Node :=
  Dir [("_subject.json", File (Blob 0)); ("trials", Dir [])].

(** Two units, a regular file and a pristine source unit. *)
Definition tree : Node :=
  Dir [("A", unit_dir); ("B", unit_dir); ("notes.txt", File (Blob 1));
       ("X_original", unit_dir)].

(** A regular file sits where the staged copy of [X_original] goes. *)
Definition blocked : Node :=
  Dir [("X_original", unit_dir); ("B", unit_dir);
       ("results", Dir [("X_original", Dir [("X", File (Blob 2))])])].

(** An earlier run has left a staged copy of [X_original], which holds a
    file that the unit does not have. *)
Definition restaged : Node :=
  Dir [("A", unit_dir); ("X_original", unit_dir);
       ("results",
        Dir [("X_original", Dir [("X", Dir [("stale.txt", File (Blob 4))])])])].

(** [restaged] once the earlier copy is removed, and once the unit is
    copied anew. *)
Definition restaged_clean : Node :=
  Dir [("A", unit_dir); ("X_original", unit_dir);
       ("results", Dir [("X_original", Dir [])])].

Definition restaged_anew : Node :=
  Dir [("A", unit_dir); ("X_original", unit_dir);
       ("results", Dir [("X_original", Dir [("X", unit_dir)])])].


(** An engine that fails on the unit [A] and succeeds elsewhere, and
    leaves the filesystem as it is. *)
Definition engine (cmd : list string) (f : Node) : ProcResult * Node :=
  if existsb (String.eqb "A") cmd then (Completed 1 "" "boom", f)
  else (Completed 0 "" "", f).

Definition clock (n : nat) : Z := Z.of_nat n.

Definition cfg (par dry cont : bool) (fl : list Path) : Config :=
  mkConfig par false ["results"] dry cont
           "kswami235/addbio" "engine/src/engine.py" fl.

Definition args (par dry cont : bool) (paths : list Path) : Args :=
  mkArgs paths par false ["results"] dry cont
         "kswami235/addbio" "engine/src/engine.py".

End Demo.

(* ------------------------------------------------------------------ *)
(** ** Properties of the filesystem operations *)

Module FsFacts.

Lemma assoc_upsert_same name n es :
  Fs.assoc name (Fs.upsert name n es) = Some n.
Proof.
  induction es as [|[k m] es IH]; simpl.
  - now rewrite String.eqb_refl.
  - destruct (String.eqb k name) eqn:E; simpl; rewrite E; auto.
Qed.

Lemma assoc_upsert_other name name' n es :
  name' <> name ->
  Fs.assoc name' (Fs.upsert name n es) = Fs.assoc name' es.
Proof.
  intros Hne. induction es as [|[k m] es IH]; simpl.
  - destruct (String.eqb name name') eqn:E; auto.
    apply String.eqb_eq in E. congruence.
  - destruct (String.eqb k name) eqn:E; simpl.
    + apply String.eqb_eq in E. subst k.
      destruct (String.eqb name name') eqn:E'; auto.
      apply String.eqb_eq in E'. congruence.
    + destruct (String.eqb k name'); auto.
Qed.

Lemma lookup_app p q fs :
  Fs.lookup (p ++ q) fs =
  match Fs.lookup p fs with
  | Some n => Fs.lookup q n
  | None => None
  end.
Proof.
  revert fs. induction p as [|c p IH]; intros fs; simpl; auto.
  destruct fs as [c0|es]; auto.
  destruct (Fs.assoc c es); auto.
Qed.

(** Below a regular file, and below a missing path, nothing exists. *)
Lemma lookup_below_non_dir p q fs :
  Fs.is_dir p fs = false -> q <> [] -> Fs.lookup (p ++ q) fs = None.
Proof.
  intros Hd Hq. rewrite lookup_app. unfold Fs.is_dir in Hd.
  destruct (Fs.lookup p fs) as [[c|es]|]; try discriminate; auto.
  destruct q; [congruence | reflexivity].
Qed.

Lemma lookup_put p m fs fs' :
  Fs.put p m fs = inr fs' -> Fs.lookup p fs' = Some m.
Proof.
  revert fs fs'. induction p as [|c p IH]; intros fs fs' H; simpl in *.
  - congruence.
  - destruct fs as [c0|es]; try discriminate.
    destruct (Fs.put p m _) as [e|k'] eqn:E; try discriminate.
    injection H as <-. rewrite assoc_upsert_same. eauto.
Qed.

(** [put] keeps every directory that is not replaced: when [p] is new,
    the directories of the tree are still directories afterwards. *)
Lemma put_keeps_dirs p m fs fs' q :
  Fs.lookup p fs = None ->
  Fs.put p m fs = inr fs' ->
  Fs.is_dir q fs = true -> Fs.is_dir q fs' = true.
Proof.
  unfold Fs.is_dir.
  revert fs fs' q. induction p as [|c p IH]; intros fs fs' q Hn H Hq; simpl in *.
  - discriminate.
  - destruct fs as [c0|es]; try discriminate.
    destruct (Fs.put p m _) as [e|k'] eqn:E; try discriminate.
    injection H as <-.
    destruct q as [|d q]; simpl in *; auto.
    destruct (String.eqb_spec d c) as [->|Hne].
    + rewrite assoc_upsert_same.
      destruct (Fs.assoc c es) as [k|] eqn:Ea.
      * eapply IH; eauto.
      * discriminate.
    + rewrite assoc_upsert_other by auto. exact Hq.
Qed.

Lemma mkdir_p_keeps_dirs p fs fs' q :
  Fs.mkdir_p p fs = inr fs' ->
  Fs.is_dir q fs = true -> Fs.is_dir q fs' = true.
Proof.
  unfold Fs.mkdir_p. intros H Hq.
  destruct (Fs.lookup p fs) as [[c|es]|] eqn:E; try discriminate.
  - congruence.
  - eapply put_keeps_dirs; eauto.
Qed.

Lemma mkdir_p_is_dir p fs fs' :
  Fs.mkdir_p p fs = inr fs' -> Fs.is_dir p fs' = true.
Proof.
  unfold Fs.mkdir_p, Fs.is_dir. intros H.
  destruct (Fs.lookup p fs) as [[c|es]|] eqn:E; try discriminate.
  - injection H as <-. now rewrite E.
  - now rewrite (lookup_put _ _ _ _ H).
Qed.

Lemma is_dir_exists p fs : Fs.is_dir p fs = true -> Fs.exists_ p fs = true.
Proof.
  unfold Fs.is_dir, Fs.exists_. destruct (Fs.lookup p fs) as [[|]|]; auto.
Qed.

(** A successful [copytree] leaves at [dst] the subtree that was at
    [src], and [dst] was not [src]. *)
Lemma copytree_spec src dst fs fs' :
  Fs.copytree src dst fs = inr fs' ->
  src <> dst /\
  Fs.exists_ dst fs = false /\
  exists es, Fs.lookup src fs = Some (Dir es) /\
             Fs.lookup dst fs' = Some (Dir es).
Proof.
  unfold Fs.copytree, Fs.exists_. intros H.
  destruct (Fs.lookup src fs) as [[c|es]|] eqn:Es; try discriminate.
  destruct (Fs.lookup dst fs) as [n|] eqn:Ed; try discriminate.
  repeat split; auto.
  - intros ->. congruence.
  - exists es. split; auto. eapply lookup_put; eauto.
Qed.

End FsFacts.

Module StrFacts.

Lemma length_app (a b : string) :
  String.length (a ++ b)%string = (String.length a + String.length b)%nat.
Proof. induction a as [|c a IH]; simpl; auto. Qed.

Lemma substring_all (s : string) : substring 0 (String.length s) s = s.
Proof. induction s as [|c s IH]; simpl; congruence. Qed.

Lemma substring_prefix (x s : string) :
  substring 0 (String.length x) (x ++ s)%string = x.
Proof.
  induction x as [|c x IH]; simpl.
  - destruct s; reflexivity.
  - now rewrite IH.
Qed.

Lemma substring_suffix (x s : string) :
  substring (String.length x) (String.length s) (x ++ s)%string = s.
Proof.
  induction x as [|c x IH]; simpl; auto. apply substring_all.
Qed.

Lemma substring_split (n : nat) (s : string) :
  (n <= String.length s)%nat ->
  (substring 0 n s ++ substring n (String.length s - n) s)%string = s.
Proof.
  revert n. induction s as [|c s IH]; intros n Hn; simpl in *.
  - destruct n; simpl; auto.
  - destruct n as [|n]; simpl.
    + now rewrite substring_all.
    + rewrite IH by lia. reflexivity.
Qed.

Lemma endswith_app (x suffix : string) :
  Str.endswith (x ++ suffix) suffix = true.
Proof.
  unfold Str.endswith. rewrite length_app.
  replace (String.length x + String.length suffix - String.length suffix)%nat
    with (String.length x) by lia.
  rewrite substring_suffix, String.eqb_refl.
  rewrite andb_true_r. apply Nat.leb_le. lia.
Qed.

Lemma drop_last_app (x suffix : string) :
  Str.drop_last (String.length suffix) (x ++ suffix) = x.
Proof.
  unfold Str.drop_last. rewrite length_app.
  replace (String.length x + String.length suffix - String.length suffix)%nat
    with (String.length x) by lia.
  apply substring_prefix.
Qed.

(** [endswith] holds exactly of the strings [x ++ suffix]. *)
Lemma endswith_spec (s suffix : string) :
  Str.endswith s suffix = true <-> exists x, s = (x ++ suffix)%string.
Proof.
  split.
  - unfold Str.endswith. intros H. apply andb_true_iff in H as [Hl He].
    apply Nat.leb_le in Hl. apply String.eqb_eq in He.
    exists (substring 0 (String.length s - String.length suffix) s).
    pose proof (substring_split (String.length s - String.length suffix) s) as H.
    replace (String.length s - (String.length s - String.length suffix))%nat
      with (String.length suffix) in H by lia.
    rewrite He in H. symmetry. apply H. lia.
  - intros [x ->]. apply endswith_app.
Qed.

Lemma append_assoc (a b c : string) :
  ((a ++ b) ++ c = a ++ (b ++ c))%string.
Proof. induction a as [|x a IH]; simpl; congruence. Qed.

End StrFacts.

(** The two f-strings of the dry run, written apart from the argument
    lists, spell those lists joined by single spaces. *)
Lemma dry_run_docker_text_joins cfg working_folder :
  dry_run_docker_text cfg working_folder
  = String.concat " " (docker_cmd cfg working_folder).
Proof.
  unfold dry_run_docker_text, docker_cmd.
  cbn [String.concat]. rewrite StrFacts.append_assoc. reflexivity.
Qed.

Lemma dry_run_local_text_joins cfg working_folder :
  dry_run_local_text cfg working_folder
  = String.concat " " (local_cmd cfg working_folder).
Proof. reflexivity. Qed.

(* ------------------------------------------------------------------ *)
(** ** Frame properties of the statements *)

Lemma no_writes_app l1 l2 :
  no_writes l1 -> no_writes l2 -> no_writes (l1 ++ l2).
Proof.
  unfold no_writes. intros H1 H2. rewrite forallb_app, H1, H2. reflexivity.
Qed.

Lemma quiet_worker {A} (m : M A) : quiet m -> worker m.
Proof.
  intros Hq s o s' H. destruct (Hq _ _ _ H) as (R & E & _ & _ & a & ->).
  repeat split; auto; try discriminate.
  exists []. rewrite app_nil_r. split; [auto | reflexivity].
Qed.

Lemma quiet_ret {A} (a : A) : quiet (ret a).
Proof. intros s o s' H. inversion H; subst. repeat split; eauto. Qed.

Lemma quiet_gets {A} (f : State -> A) : quiet (gets f).
Proof. intros s o s' H. inversion H; subst. repeat split; eauto. Qed.

Lemma quiet_print lvl t : quiet (print lvl t).
Proof. intros s o s' H. inversion H; subst. simpl. repeat split; eauto. Qed.

Lemma quiet_bind {A B} (m : M A) (k : A -> M B) :
  quiet m -> (forall a, quiet (k a)) -> quiet (bind m k).
Proof.
  intros Hm Hk s o s' H. unfold bind in H.
  destruct (m s) as [[a|e|c] s1] eqn:E;
    destruct (Hm _ _ _ E) as (R1 & E1 & F1 & T1 & a1 & Ha); try discriminate.
  destruct (Hk _ _ _ _ H) as (R2 & E2 & F2 & T2 & a2 & ->).
  repeat split; try congruence. eauto.
Qed.

Lemma worker_raise {A} (e : Exn) : worker (@raise A e).
Proof.
  intros s o s' H. inversion H; subst. repeat split; try discriminate.
  exists []. rewrite app_nil_r. split; [auto | reflexivity].
Qed.

Lemma worker_fs_call ev op p :
  is_write ev = false -> worker (fs_call ev op p).
Proof.
  intros Hev s o s' H. unfold fs_call in H.
  assert (Hn : no_writes [ev]) by (unfold no_writes; simpl; now rewrite Hev).
  destruct (op (fs s)); inversion H; subst; simpl;
    repeat split; try discriminate; eauto.
Qed.

Lemma worker_bind {A B} (m : M A) (k : A -> M B) :
  worker m -> (forall a, worker (k a)) -> worker (bind m k).
Proof.
  intros Hm Hk s o s' H. unfold bind in H.
  destruct (m s) as [[a|e|c] s1] eqn:E;
    destruct (Hm _ _ _ E) as (R1 & X1 & new1 & E1 & W1).
  - destruct (Hk _ _ _ _ H) as (R2 & X2 & new2 & E2 & W2).
    repeat split; try congruence.
    exists (new1 ++ new2). rewrite E2, E1, app_assoc.
    split; auto using no_writes_app.
  - inversion H; subst. repeat split; try discriminate; eauto.
  - now destruct (X1 c).
Qed.

Lemma worker_try_except {A} (body : M A) (handler : Exn -> M A) :
  worker body -> (forall e, worker (handler e)) ->
  worker (try_except body handler).
Proof.
  intros Hm Hk s o s' H. unfold try_except in H.
  destruct (body s) as [[a|e|c] s1] eqn:E;
    destruct (Hm _ _ _ E) as (R1 & X1 & new1 & E1 & W1).
  - inversion H; subst. repeat split; try discriminate; eauto.
  - destruct (Hk _ _ _ _ H) as (R2 & X2 & new2 & E2 & W2).
    repeat split; try congruence.
    exists (new1 ++ new2). rewrite E2, E1, app_assoc.
    split; auto using no_writes_app.
  - now destruct (X1 c).
Qed.

Create HintDb frame.
#[export] Hint Resolve quiet_ret quiet_gets quiet_print worker_raise : frame.

(** Decompose a statement along its binds, handlers and conditionals. *)
Ltac frame :=
  repeat first
    [ progress auto with frame
    | apply quiet_bind; [ | intros ? ]
    | apply worker_bind; [ | intros ? ]
    | apply worker_try_except; [ | intros ? ]
    | apply worker_fs_call; reflexivity
    | match goal with
      | |- quiet (if ?b then _ else _) => destruct b
      | |- worker (if ?b then _ else _) => destruct b
      | |- worker (match ?e with _ => _ end) => destruct e
      | |- quiet (match ?e with _ => _ end) => destruct e
      end
    | apply quiet_worker ].

Lemma worker_copytree src dst : worker (copytree src dst).
Proof.
  intros s o s' H. unfold copytree in H.
  eapply worker_fs_call; [|exact H]. reflexivity.
Qed.

#[export] Hint Resolve worker_copytree : frame.

Section RunnerFacts.

Variable engine : list string -> Node -> ProcResult * Node.
Variable clock : nat -> Z.

Lemma worker_now : worker (now clock).
Proof.
  intros s o s' H. inversion H; subst; simpl.
  repeat split; try discriminate.
  exists []. rewrite app_nil_r. split; [auto | reflexivity].
Qed.

Lemma worker_subprocess_run cmd : worker (subprocess_run engine cmd).
Proof.
  intros s o s' H. unfold subprocess_run in H.
  assert (Hn : no_writes [EvRun cmd]) by reflexivity.
  destruct (engine cmd (fs s)) as [[rc out err|e] fs'].
  - destruct (rc =? 0)%Z; inversion H; subst; simpl;
      repeat split; try discriminate; eauto.
  - inversion H; subst; simpl. repeat split; try discriminate; eauto.
Qed.

Hint Resolve worker_now worker_subprocess_run : frame.

Lemma worker_prepare cfg folder_path :
  worker (prepare cfg folder_path).
Proof. unfold prepare, mkdir, rmtree, print_info. frame. Qed.

Lemma worker_invoke cfg folder_name working_folder :
  worker (invoke engine clock cfg folder_name working_folder).
Proof. unfold invoke, print_info, print_success, print_error. frame. Qed.

Lemma worker_process_folder cfg folder_path :
  worker (process_folder engine clock cfg folder_path).
Proof.
  unfold process_folder, print_info.
  pose proof worker_prepare. pose proof worker_invoke.
  frame.
Qed.
(* ---------------------------------------------------------------- *)
(** *** The executor *)

(** C2 (as amended).  Under dry run, when the output directory of the
    folder can be made, [process_folder] returns success with duration
    [0] at once; it invokes no command, removes and copies nothing, reads
    no clock, and its one filesystem action is the creation of that
    output directory. *)
Theorem dry_run_only_makes_output_directory cfg folder_path s fs1 :
  dry_run cfg = true ->
  Fs.mkdir_p (output_dir cfg // PathOps.basename folder_path) (fs s)
    = inr fs1 ->
  exists s',
    process_folder engine clock cfg folder_path s
      = (Ret (true, PathOps.basename folder_path, 0%Z), s') /\
    events s' =
      events s ++ [EvMkdir (output_dir cfg // PathOps.basename folder_path)] /\
    fs s' = fs1 /\ ticks s' = ticks s /\ results s' = results s.
Proof.
  intros Hdry Hmk.
  unfold process_folder, prepare, bind, print_info, print, mkdir, fs_call,
    ret, emit, with_fs.
  cbn [fs ticks log events results]. rewrite Hmk, Hdry. cbn [negb].
  destruct (Str.endswith _ _), (use_docker cfg);
    cbn [fs ticks log events results]; eexists; repeat split; reflexivity.
Qed.

(** C3 (as amended).  Once the first part of [process_folder] has
    returned, nothing escapes: whatever the external command does (exit
    status zero or not, or a fault of the invocation itself), the
    executor returns an outcome for the folder, made of the success flag,
    the name of the folder and the measured duration, which is the
    difference of the two readings of the clock around the invocation.
    The outcome is a success exactly when the command exits with status
    zero.  On a failure the fault is described on the console and nowhere
    else (the outcome triple has no field for it): after the line that
    announces the run, a non-zero exit prints the failure line, the
    return code and then the captured standard output and standard error,
    each when it is not empty; any other fault prints one line that holds
    the fault.  The command is invoked once, and the clock is read
    twice. *)
Theorem invocation_faults_are_contained cfg folder_path s working_folder s1 :
  dry_run cfg = false ->
  prepare cfg folder_path s = (Ret working_folder, s1) ->
  exists success s',
    let name := PathOps.basename folder_path in
    let duration := (clock (S (ticks s1)) - clock (ticks s1))%Z in
    let running :=
      (INFO, if use_docker cfg then TRunningDocker else TRunningLocal) in
    let failed rc out err :=
      [running; (ERROR, TFailedToProcess name); (ERROR, TReturnCode rc)]
      ++ (if Str.nonempty out then [(ERROR, TStdout out)] else [])
      ++ (if Str.nonempty err then [(ERROR, TStderr err)] else []) in
    process_folder engine clock cfg folder_path s
      = (Ret (success, name, duration), s') /\
    ticks s' = S (S (ticks s1)) /\
    events s' = events s1 ++ [EvRun (engine_cmd cfg working_folder)] /\
    fs s' = snd (engine (engine_cmd cfg working_folder) (fs s1)) /\
    results s' = results s1 /\
    match fst (engine (engine_cmd cfg working_folder) (fs s1)) with
    | Completed rc out err =>
        if (rc =? 0)%Z then
          success = true /\
          log s' = log s1 ++ [running; (SUCCESS, TCompleted name);
                              (INFO, TProcessingTime name duration)]
        else success = false /\ log s' = log s1 ++ failed rc out err
    | Failed (CalledProcessError rc out err) =>
        success = false /\ log s' = log s1 ++ failed rc out err
    | Failed e =>
        success = false /\
        log s' = log s1 ++ [running; (ERROR, TUnexpected name e)]
    end.
Proof.
  intros Hdry Hprep.
  unfold process_folder, bind. rewrite Hprep, Hdry.
  unfold invoke, engine_cmd, try_except, bind, now, subprocess_run,
    print_info, print_success, print_error, print, ret, emit, with_fs.
  destruct (use_docker cfg); cbn [fs ticks log events results];
    (match goal with
     | |- context [engine ?c ?f] =>
         destruct (engine c f) as [[rc out err|e] fs'] eqn:He
     end; cbn [fst snd];
     [ destruct (rc =? 0)%Z | destruct e ]);
    repeat match goal with
           | |- context [Str.nonempty ?x] => destruct (Str.nonempty x)
           end;
    cbn [fs ticks log events results fst snd];
    do 2 eexists; cbn zeta; (split; [reflexivity | ]);
    cbn [fs ticks log events results];
    repeat (split; [reflexivity | ]);
    rewrite <- ?app_assoc; reflexivity.
Qed.

(** What the guarded invocation does: one command, on the filesystem it
    is given, and always an outcome. *)
Lemma invoke_spec cfg folder_name working_folder s1 :
  exists success duration s',
    invoke engine clock cfg folder_name working_folder s1
      = (Ret (success, folder_name, duration), s') /\
    events s' = events s1 ++ [EvRun (engine_cmd cfg working_folder)] /\
    fs s' = snd (engine (engine_cmd cfg working_folder) (fs s1)) /\
    results s' = results s1.
Proof.
  unfold invoke, engine_cmd, try_except, bind, now, subprocess_run,
    print_info, print_success, print_error, print, ret, emit, with_fs.
  destruct (use_docker cfg); cbn [fs ticks log events results];
    (match goal with
     | |- context [engine ?c ?f] =>
         destruct (engine c f) as [[rc out err|e] fs'] eqn:He
     end; cbn [snd];
     [ destruct (rc =? 0)%Z | destruct e ]);
    repeat match goal with
           | |- context [Str.nonempty ?x] => destruct (Str.nonempty x)
           end;
    cbn [fs ticks log events results];
    do 3 eexists; repeat split; reflexivity.
Qed.

(** The first part of [process_folder] on a folder named [X_original],
    outside dry run: it returns as soon as its three filesystem calls
    do, and these are the making of the output directory, the removal of
    what is at the staged location and the copy. *)
Lemma prepare_staged cfg folder_path s X fs_out fs_clean fs_staged :
  dry_run cfg = false ->
  PathOps.basename folder_path = (X ++ "_original")%string ->
  Fs.mkdir_p (output_dir cfg // (X ++ "_original")%string) (fs s)
    = inr fs_out ->
  (if Fs.exists_ (output_dir cfg // (X ++ "_original")%string // X) fs_out
   then Fs.rmtree (output_dir cfg // (X ++ "_original")%string // X) fs_out
   else inr fs_out) = inr fs_clean ->
  Fs.copytree folder_path (output_dir cfg // (X ++ "_original")%string // X)
              fs_clean = inr fs_staged ->
  exists s1,
    prepare cfg folder_path s
      = (Ret (output_dir cfg // (X ++ "_original")%string // X), s1) /\
    fs s1 = fs_staged /\
    events s1 =
      events s ++ [EvMkdir (output_dir cfg // (X ++ "_original")%string)]
        ++ (if Fs.exists_ (output_dir cfg // (X ++ "_original")%string // X)
                          fs_out
            then [EvRmtree (output_dir cfg // (X ++ "_original")%string // X)]
            else [])
        ++ [EvCopytree folder_path
              (output_dir cfg // (X ++ "_original")%string // X)].
Proof.
  intros Hdry Hname Hmk Hrm Hcp.
  unfold prepare. rewrite Hname, StrFacts.endswith_app.
  change 9%nat with (String.length "_original").
  rewrite StrFacts.drop_last_app, Hdry.
  unfold bind, print_info, print, mkdir, rmtree, copytree, fs_call, gets,
    ret, emit, with_fs.
  cbn [fs ticks log events results negb]. rewrite Hmk.
  cbn [fs ticks log events results].
  destruct (Fs.exists_ _ fs_out); cbn [fs ticks log events results].
  - rewrite Hrm. cbn [fs ticks log events results]. rewrite Hcp.
    eexists. split; [reflexivity|]. cbn [fs ticks log events results].
    split; [reflexivity|]. now rewrite <- !app_assoc.
  - injection Hrm as <-. rewrite Hcp.
    eexists. split; [reflexivity|]. cbn [fs ticks log events results].
    split; [reflexivity|]. now rewrite <- !app_assoc.
Qed.

(** The first part of [process_folder] on a folder without the suffix:
    it returns as soon as the output directory is made. *)
Lemma prepare_direct cfg folder_path s fs_out :
  Str.endswith (PathOps.basename folder_path) "_original" = false ->
  Fs.mkdir_p (output_dir cfg // PathOps.basename folder_path) (fs s)
    = inr fs_out ->
  exists s1,
    prepare cfg folder_path s = (Ret folder_path, s1) /\
    fs s1 = fs_out /\
    events s1 =
      events s ++ [EvMkdir (output_dir cfg // PathOps.basename folder_path)].
Proof.
  intros Hend Hmk. unfold prepare. rewrite Hend.
  unfold bind, print_info, print, mkdir, fs_call, ret, emit, with_fs.
  cbn [fs ticks log events results]. rewrite Hmk.
  eexists. repeat split; reflexivity.
Qed.

(** C4 (as amended).  Let the output directory [<output_dir>/<name>] of
    the folder be made without a fault.
    - Outside dry run, for a folder named [X_original]: when the removal
      of what is at [<output_dir>/X_original/X] (attempted exactly when
      something is there) and then the copy of the folder to that place
      raise no fault, [process_folder] returns an outcome; its actions
      are the making of the output directory, the removal when something
      was there, the copy, and one invocation of the engine on the staged
      path, in that order, and the engine runs on the tree that holds the
      copy.  The staged path is not the path of the folder, nothing is
      left at it when the copy is made, and it then holds the subtree of
      the folder.
    - Outside dry run, for a folder without the suffix: [process_folder]
      returns an outcome, nothing is copied and the one command invoked
      is the engine's on the path of the folder.
    - Under dry run, for a folder named [X_original]: [process_folder]
      returns a success of duration zero, the only action is the making
      of the output directory, and the copy and the command are only
      printed. *)
Theorem staging_rule cfg folder_path s fs_out :
  let name := PathOps.basename folder_path in
  let out := output_dir cfg // name in
  Fs.mkdir_p out (fs s) = inr fs_out ->
  (forall X fs_clean fs_staged,
     let wf := out // X in
     dry_run cfg = false ->
     name = (X ++ "_original")%string ->
     (if Fs.exists_ wf fs_out then Fs.rmtree wf fs_out else inr fs_out)
       = inr fs_clean ->
     Fs.copytree folder_path wf fs_clean = inr fs_staged ->
     wf <> folder_path /\
     Fs.exists_ wf fs_clean = false /\
     (exists es, Fs.lookup folder_path fs_clean = Some (Dir es) /\
                 Fs.lookup wf fs_staged = Some (Dir es)) /\
     exists success duration s',
       process_folder engine clock cfg folder_path s
         = (Ret (success, name, duration), s') /\
       events s' =
         events s ++ [EvMkdir out]
           ++ (if Fs.exists_ wf fs_out then [EvRmtree wf] else [])
           ++ [EvCopytree folder_path wf; EvRun (engine_cmd cfg wf)] /\
       fs s' = snd (engine (engine_cmd cfg wf) fs_staged))
  /\
  (dry_run cfg = false ->
   (forall X, name <> (X ++ "_original")%string) ->
   exists success duration s',
     process_folder engine clock cfg folder_path s
       = (Ret (success, name, duration), s') /\
     events s' =
       events s ++ [EvMkdir out; EvRun (engine_cmd cfg folder_path)] /\
     fs s' = snd (engine (engine_cmd cfg folder_path) fs_out))
  /\
  (forall X,
     let wf := out // X in
     dry_run cfg = true ->
     name = (X ++ "_original")%string ->
     exists s',
       process_folder engine clock cfg folder_path s
         = (Ret (true, name, 0%Z), s') /\
       events s' = events s ++ [EvMkdir out] /\
       fs s' = fs_out /\
       log s' =
         log s ++ [(INFO, TProcessing folder_path);
                   (INFO, TCopying folder_path wf);
                   (INFO, TDryRunWould wf);
                   (INFO, TDryRunCommand
                            (String.concat " " (engine_cmd cfg wf)))]).
Proof.
  intros name out Hmk. split; [|split].
  - intros X fs_clean fs_staged wf Hdry HX Hrm Hcp.
    destruct (FsFacts.copytree_spec _ _ _ _ Hcp)
      as (Hne & Hfree & es & Hsrc & Hdst).
    split; [congruence|]. split; [exact Hfree|].
    split; [exists es; split; assumption|].
    subst wf out. unfold name in *. rewrite HX in Hmk, Hrm, Hcp |- *.
    destruct (prepare_staged cfg folder_path s X _ _ _ Hdry HX Hmk Hrm Hcp)
      as (s1 & Hprep & Hfs1 & Hev1).
    destruct (invoke_spec cfg (X ++ "_original")%string
                (output_dir cfg // (X ++ "_original")%string // X) s1)
      as (success & duration & s2 & Hinv & Hev & Hfs & _).
    exists success, duration, s2.
    unfold process_folder, bind. rewrite Hprep, Hdry, HX.
    split; [exact Hinv|]. split.
    + rewrite Hev, Hev1. now rewrite <- !app_assoc.
    + now rewrite Hfs, Hfs1.
  - intros Hdry Hno.
    assert (Hend : Str.endswith name "_original" = false).
    { destruct (Str.endswith name "_original") eqn:Eend; [|reflexivity].
      apply StrFacts.endswith_spec in Eend as [X HX].
      now destruct (Hno X). }
    destruct (prepare_direct cfg folder_path s fs_out Hend Hmk)
      as (s1 & Hprep & Hfs1 & Hev1).
    destruct (invoke_spec cfg name folder_path s1)
      as (success & duration & s2 & Hinv & Hev & Hfs & _).
    exists success, duration, s2.
    unfold process_folder, bind. rewrite Hprep, Hdry.
    split; [exact Hinv|]. split.
    + rewrite Hev, Hev1. now rewrite <- app_assoc.
    + now rewrite Hfs, Hfs1.
  - intros X wf Hdry HX.
    subst wf out. unfold name in *. rewrite HX in Hmk |- *.
    unfold process_folder, prepare. rewrite HX, StrFacts.endswith_app.
    change 9%nat with (String.length "_original").
    rewrite StrFacts.drop_last_app, Hdry.
    unfold bind, print_info, print, mkdir, fs_call, ret, emit, with_fs.
    cbn [fs ticks log events results negb]. rewrite Hmk.
    unfold engine_cmd.
    destruct (use_docker cfg); cbn [fs ticks log events results];
      [rewrite <- dry_run_docker_text_joins
      |rewrite <- dry_run_local_text_joins];
      eexists; (split; [reflexivity|]); cbn [fs ticks log events results];
      rewrite <- ?app_assoc; repeat split; reflexivity.
Qed.

(* ---------------------------------------------------------------- *)
(** *** The orchestrators *)

Lemma adds_trans s s1 s2 extra1 new1 extra2 new2 :
  adds s s1 extra1 new1 -> adds s1 s2 extra2 new2 ->
  adds s s2 (extra1 ++ extra2) (new1 ++ new2).
Proof.
  intros (R1 & E1 & W1) (R2 & E2 & W2). repeat split.
  - now rewrite R2, R1, app_assoc.
  - now rewrite E2, E1, app_assoc.
  - now apply no_writes_app.
Qed.

(** One iteration of either loop, up to the recording of the outcome. *)
Lemma process_folder_adds cfg folder s o s1 :
  process_folder engine clock cfg folder s = (o, s1) ->
  (forall c, o <> Exit c) /\ exists new, adds s s1 [] new.
Proof.
  intros H. destruct (worker_process_folder cfg folder _ _ _ H)
    as (R & X & new & E & W).
  split; auto. exists new. repeat split; auto. now rewrite app_nil_r.
Qed.

Lemma sequential_loop_spec cfg fl :
  forall sc fc s o s',
    sequential_loop engine clock cfg fl sc fc s = (o, s') ->
    exists extra new,
      adds s s' extra new /\
      match o with
      | Ret _ => length extra = length fl
      | Exit c =>
          c = 1%Z /\ continue_on_error cfg = false /\
          exists before r, extra = before ++ [r] /\ r_success r = false
      | Raise _ => (length extra < length fl)%nat
      end.
Proof.
  induction fl as [|folder rest IH]; intros sc fc s o s' H.
  - inversion H; subst. exists [], []. split; [|reflexivity].
    repeat split; now rewrite ?app_nil_r.
  - cbn [sequential_loop] in H. unfold bind at 1 in H.
    destruct (process_folder engine clock cfg folder s)
      as [[[[success name] d]|e|c] s1] eqn:Hpf;
      destruct (process_folder_adds _ _ _ _ _ Hpf) as (X & new1 & A1).
    + unfold bind, now, append_result in H.
      cbn [fs ticks log events results] in H.
      match type of H with
      | context [mkState ?a ?b ?c ?d (results s1 ++ [?r])] =>
          set (s2 := mkState a b c d (results s1 ++ [r])) in *;
          assert (A2 : adds s1 s2 [r] [])
            by (repeat split; cbn; now rewrite ?app_nil_r)
      end.
      pose proof (adds_trans _ _ _ _ _ _ _ A1 A2) as A12.
      rewrite app_nil_r in A12. cbn [app] in A12.
      destruct success.
      * apply IH in H as (extra & new & A3 & Ho).
        pose proof (adds_trans _ _ _ _ _ _ _ A12 A3) as A.
        cbn [app] in A. eexists _, _. split; [exact A|].
        destruct o; cbn [length]; try lia.
        destruct Ho as (-> & Hc & before & r & -> & Hr).
        repeat split; auto. eexists (_ :: before), r.
        split; [reflexivity | assumption].
      * destruct (continue_on_error cfg) eqn:Hc; cbn [negb] in H.
        -- unfold ret in H. apply IH in H as (extra & new & A3 & Ho).
           pose proof (adds_trans _ _ _ _ _ _ _ A12 A3) as A.
           cbn [app] in A. eexists _, _. split; [exact A|].
           destruct o; cbn [length]; try lia; now destruct Ho.
        -- unfold print_error, print, sys_exit in H.
           inversion H; subst.
           eexists _, _. split.
           ++ destruct A12 as (R & E & W). repeat split; eauto.
           ++ repeat split; auto. eexists [], _. split; reflexivity.
    + inversion H; subst. exists [], new1. split; [exact A1|cbn; lia].
    + now destruct (X c).
Qed.

(** The loop over a list that starts with folders that all got through
    goes on, after them, from the state they leave. *)
Lemma sequential_loop_app cfg pre rest :
  forall sc fc s sc' fc' s0,
    sequential_loop engine clock cfg pre sc fc s = (Ret (sc', fc'), s0) ->
    sequential_loop engine clock cfg (pre ++ rest) sc fc s
      = sequential_loop engine clock cfg rest sc' fc' s0.
Proof.
  induction pre as [|folder pre IH]; intros sc fc s sc' fc' s0 H.
  - inversion H; subst. reflexivity.
  - cbn [sequential_loop app] in *. unfold bind at 1 in H.
    unfold bind at 1.
    destruct (process_folder engine clock cfg folder s)
      as [[[[success name] d]|e|c] s1]; try discriminate.
    unfold bind, now, append_result in *.
    cbn [fs ticks log events results] in *.
    destruct success; [eauto|].
    destruct (continue_on_error cfg); cbn [negb] in *.
    + unfold ret in *. eauto.
    + unfold print_error, print, sys_exit in *. discriminate.
Qed.

Lemma remove_nth_length {A} (k : nat) (l : list A) :
  (k < length l)%nat -> length (remove_nth k l) = pred (length l).
Proof.
  revert k. induction l as [|x l IH]; intros k Hk; cbn in *; [lia|].
  destruct k; cbn; auto. rewrite IH by lia. lia.
Qed.

(** The collecting loop records exactly one result for a future, whether
    its task returned or raised. *)
Lemma collect_spec cfg folder s :
  exists r new s',
    collect engine clock cfg folder s = (Ret tt, s') /\
    adds s s' [r] new.
Proof.
  unfold collect, try_except. unfold bind at 1.
  destruct (process_folder engine clock cfg folder s)
    as [[[[success name] d]|e|c] s1] eqn:Hpf;
    destruct (process_folder_adds _ _ _ _ _ Hpf)
      as (X & new1 & R1 & E1 & W1);
    rewrite app_nil_r in R1.
  - unfold bind, now, append_result, print_success, print_error, print.
    cbn [fs ticks log events results].
    destruct success; cbn [fs ticks log events results];
      do 3 eexists; (split; [reflexivity|]);
      repeat split; cbn [fs ticks log events results];
      try rewrite R1; eauto.
  - unfold bind, now, append_result, print_error, print.
    cbn [fs ticks log events results].
    do 3 eexists; (split; [reflexivity|]);
      repeat split; cbn [fs ticks log events results];
      try rewrite R1; eauto.
  - now destruct (X c).
Qed.

Lemma pool_loop_spec cfg :
  forall n sched pending s,
    n = length pending ->
    exists extra new s',
      pool_loop engine clock cfg sched pending n s = (Ret tt, s') /\
      adds s s' extra new /\ length extra = n.
Proof.
  induction n as [|n IH]; intros sched pending s Hn.
  - exists [], [], s. repeat split; now rewrite ?app_nil_r.
  - destruct pending as [|first rest]; [discriminate|].
    cbn [pool_loop]. unfold bind at 1.
    set (k := (hd 0%nat sched mod length (first :: rest))%nat).
    assert (Hk : (k < length (first :: rest))%nat)
      by (apply Nat.mod_upper_bound; discriminate).
    destruct (collect_spec cfg (nth k (first :: rest) first) s)
      as (r & new1 & s1 & -> & A1).
    destruct (IH (tl sched) (remove_nth k (first :: rest)) s1)
      as (extra & new & s' & -> & A2 & Hlen).
    { rewrite remove_nth_length by exact Hk. cbn in *. lia. }
    exists ([r] ++ extra), (new1 ++ new), s'.
    split; [reflexivity|]. split; [eapply adds_trans; eauto|].
    cbn. lia.
Qed.

Lemma process_folders_parallel_spec cfg sched s :
  folders cfg <> [] ->
  exists extra new s',
    process_folders_parallel engine clock cfg sched s = (Ret tt, s') /\
    adds s s' extra new /\ length extra = length (folders cfg).
Proof.
  intros Hne. unfold process_folders_parallel, bind, print_info, print.
  destruct (Nat.min (length (folders cfg)) 4 =? 0)%nat eqn:Hmin.
  - apply Nat.eqb_eq in Hmin. destruct (folders cfg); [congruence|].
    cbn [length] in Hmin. lia.
  - match goal with
    | |- context [pool_loop _ _ _ ?sch ?p ?n ?st] =>
        destruct (pool_loop_spec cfg n sch p st eq_refl)
          as (extra & new & s' & -> & (R & E & W) & Hlen)
    end.
    exists extra, new, s'. repeat split; auto.
Qed.

Lemma process_folders_sequential_spec cfg s o s' :
  process_folders_sequential engine clock cfg s = (o, s') ->
  exists extra new,
    adds s s' extra new /\
    match o with
    | Ret _ => length extra = length (folders cfg)
    | Exit c =>
        c = 1%Z /\ continue_on_error cfg = false /\
        exists before r, extra = before ++ [r] /\ r_success r = false
    | Raise _ => (length extra < length (folders cfg))%nat
    end.
Proof.
  unfold process_folders_sequential. unfold bind at 1.
  unfold print_info at 1, print. unfold bind at 1.
  intros H.
  match type of H with
  | context [sequential_loop _ _ _ _ _ _ ?st] =>
      destruct (sequential_loop engine clock cfg (folders cfg) 0 0 st)
        as [[[sc fc]|e|c] s1] eqn:Hloop;
      destruct (sequential_loop_spec _ _ _ _ _ _ _ Hloop)
        as (extra & new & (R & E & W) & Ho)
  end;
    cbn [fs ticks log events results] in *;
    inversion H; subst; cbn [fs ticks log events results];
    exists extra, new; (split; [repeat split; auto | exact Ho]).
Qed.

(** C5.  Sequential mode without [--continue-on-error]: when the folders
    before [a] all got through and the outcome of [a] is a failure, the
    orchestrator leaves at once through [sys.exit(1)].  The state it
    leaves is the one [a] left plus the record of [a]: no action is
    issued for the folders after [a], whatever they are, and nothing
    that follows the orchestrator is run.  The results are those of the
    folders up to [a], the last one the failure of [a]; for the folders
    [[a; b]] that is exactly one entry. *)
Theorem sequential_fail_fast cfg sched s s_start pre a rest counts s0
        name d s1 :
  parallel cfg = false ->
  continue_on_error cfg = false ->
  folders cfg = pre ++ a :: rest ->
  print_info (TStartSequential (length (folders cfg))) s
    = (Ret tt, s_start) ->
  sequential_loop engine clock cfg pre 0 0 s_start = (Ret counts, s0) ->
  process_folder engine clock cfg a s0 = (Ret (false, name, d), s1) ->
  exists s',
    process_folders engine clock cfg sched s = (Exit 1%Z, s') /\
    exit_status (fst (process_folders engine clock cfg sched s)) <> 0%Z /\
    (forall k : unit -> M unit,
        (process_folders engine clock cfg sched ;; k tt) s
          = (Exit 1%Z, s')) /\
    results s' =
      results s1 ++ [mkResult name false d None (clock (ticks s1))] /\
    length (results s') = (length (results s) + length pre + 1)%nat /\
    events s' = events s1 /\ fs s' = fs s1.
Proof.
  intros Hpar Hcont Hfl Hstart Hpre Ha.
  assert (Hrun :
    process_folders engine clock cfg sched s =
    (Exit 1%Z,
     mkState (fs s1) (S (ticks s1))
             (log s1 ++ [(ERROR, TStopping name)]) (events s1)
             (results s1 ++
                [mkResult name false d None (clock (ticks s1))]))).
  { unfold process_folders, process_folders_sequential. rewrite Hpar.
    unfold bind at 1. rewrite Hstart. unfold bind at 1.
    destruct counts as [sc fc].
    rewrite Hfl, (sequential_loop_app _ _ _ _ _ _ _ _ _ Hpre).
    cbn [sequential_loop]. unfold bind at 1. rewrite Ha.
    unfold bind, now, append_result, print_error, print, sys_exit.
    rewrite Hcont. reflexivity. }
  eexists. split; [exact Hrun|]. rewrite Hrun. cbn [fst exit_status].
  repeat split; try reflexivity; try discriminate.
  - intros k. unfold bind. now rewrite Hrun.
  - cbn [results]. rewrite length_app. cbn [length].
    destruct (process_folder_adds _ _ _ _ _ Ha) as (_ & new & R & _).
    destruct counts as [sc fc].
    destruct (sequential_loop_spec _ _ _ _ _ _ _ Hpre)
      as (extra & new' & (R' & _) & Hlen).
    unfold print_info, print in Hstart. inversion Hstart; subst s_start.
    cbn [results] in R'.
    rewrite R, app_nil_r, R', length_app, Hlen. lia.
Qed.

(* ---------------------------------------------------------------- *)
(** *** The report and [run] *)

Lemma count_where_length keep rs :
  count_where keep rs = length (filter keep rs).
Proof.
  unfold count_where. induction (filter keep rs); cbn; auto.
Qed.

Lemma count_where_total keep rs :
  (count_where keep rs + count_where (fun r => negb (keep r)) rs)%nat
  = length rs.
Proof.
  rewrite !count_where_length.
  induction rs as [|r rs IH]; cbn; auto.
  destruct (keep r); cbn; lia.
Qed.

Lemma quiet_print_failed rs : quiet (print_failed rs).
Proof.
  induction rs; cbn [print_failed]; unfold print_warning; frame.
Qed.

Lemma quiet_print_summary cfg : quiet (print_summary cfg).
Proof.
  unfold print_summary, print_info, print_warning.
  pose proof quiet_print_failed. frame.
Qed.

Lemma quiet_validate_folders_loop fl : quiet (validate_folders_loop fl).
Proof.
  induction fl; cbn [validate_folders_loop]; unfold print_error; frame.
Qed.

Lemma validate_folders_loop_ok fl s :
  (forall f, In f fl -> Fs.is_dir f (fs s) = true) ->
  validate_folders_loop fl s = (Ret true, s).
Proof.
  induction fl as [|f fl IH]; intros H; cbn [validate_folders_loop].
  - reflexivity.
  - unfold bind, gets. cbv beta.
    rewrite (FsFacts.is_dir_exists _ _ (H f (or_introl eq_refl))).
    cbn [negb]. rewrite (H f (or_introl eq_refl)). cbn [negb].
    apply IH. intros g Hg. apply H. now right.
Qed.

(** The report step: the summary of the results at hand is written to
    [processing_results.json], and that is its only action. *)
Lemma report_spec cfg s1 o s' :
  report clock cfg s1 = (o, s') ->
  let sm := summary_of cfg (results s1) (clock (ticks s1)) in
  results s' = results s1 /\
  events s' = events s1 ++ [EvWrite (results_file cfg) (Report sm)] /\
  match Fs.write_file (results_file cfg) (Report sm) (fs s1) with
  | inr fs' => o = Ret tt /\ fs s' = fs'
  | inl k => o = Raise (OSError k (results_file cfg)) /\ fs s' = fs s1
  end.
Proof.
  intros H sm. subst sm.
  unfold report, save_results, bind, gets, now, write_file, fs_call, emit,
    with_fs, print_info, print_warning, print_success, print in H.
  cbn [fs ticks log events results] in H.
  destruct (Fs.write_file _ _ (fs s1)) as [k|fs'] eqn:Ew.
  - inversion H; subst. cbn. auto.
  - match type of H with
    | context [print_summary cfg ?st] =>
        destruct (print_summary cfg st) as [o1 s2] eqn:Hsum;
        destruct (quiet_print_summary cfg _ _ _ Hsum)
          as (R & E & F & T & [] & ->)
    end.
    cbn [fs ticks log events results] in *.
    destruct (existsb _ _); inversion H; subst;
      cbn [fs ticks log events results]; auto.
Qed.

Lemma process_folders_spec cfg sched s o s' :
  process_folders engine clock cfg sched s = (o, s') ->
  exists extra new,
    adds s s' extra new /\
    match o with
    | Ret _ => length extra = length (folders cfg)
    | Exit c =>
        c = 1%Z /\ parallel cfg = false /\
        continue_on_error cfg = false /\
        exists before r, extra = before ++ [r] /\ r_success r = false
    | Raise _ => True
    end.
Proof.
  unfold process_folders. destruct (parallel cfg) eqn:Hpar; intros H.
  - destruct (folders cfg) as [|f fl] eqn:Hfl.
    + unfold process_folders_parallel, bind, print_info, print, raise in H.
      rewrite Hfl in H. cbn in H. inversion H; subst. cbn.
      exists [], []. repeat split; now rewrite ?app_nil_r.
    + destruct (process_folders_parallel_spec cfg sched s)
        as (extra & new & s2 & Hrun & A & Hlen); [congruence|].
      rewrite H in Hrun. inversion Hrun; subst.
      exists extra, new. split; auto. congruence.
  - destruct (process_folders_sequential_spec _ _ _ _ H)
      as (extra & new & A & Ho).
    exists extra, new. split; auto.
    destruct o; auto. tauto.
Qed.

(** The course of [run]: the configuration is printed and the folders
    are checked, which changes nothing but the console; then either the
    check fails and [run] exits, or the folders are processed and, if
    that returns, reported. *)
Lemma run_cases cfg sched s o s' :
  run engine clock cfg sched s = (o, s') ->
  exists sp ok s0,
    results sp = results s /\ events sp = events s /\ fs sp = fs s /\
    validate_folders cfg sp = (Ret ok, s0) /\
    results s0 = results s /\ events s0 = events s /\ fs s0 = fs s /\
    if ok then
      (process_folders engine clock cfg sched ;; report clock cfg) s0
        = (o, s')
    else o = Exit 1%Z /\ s' = s0.
Proof.
  intros H.
  unfold run, bind, print_info, print, ret, sys_exit in H.
  cbn [fs ticks log events results] in H.
  destruct (use_docker cfg); cbn [fs ticks log events results] in H;
    match type of H with
    | context [validate_folders cfg ?st] =>
        set (sp := st) in *;
        destruct (validate_folders cfg sp) as [ov s0] eqn:Hval;
        destruct (quiet_validate_folders_loop _ _ _ _ Hval)
          as (R & E & F & T & ok & ->)
    end;
    exists sp, ok, s0;
    (repeat split; try reflexivity; try assumption);
    destruct ok; cbn [negb] in H;
    solve [ unfold bind; exact H | inversion H; auto ].
Qed.

(** C10.  Every report that [run] writes, started on a runner whose
    result list is empty as [__init__] leaves it, has counts that add up:
    [successful + failed = total_folders]; it holds one result per
    folder. *)
Theorem report_counts_add_up cfg sched s o s' :
  results s = [] ->
  run engine clock cfg sched s = (o, s') ->
  exists new,
    events s' = events s ++ new /\
    forall p sm,
      In (EvWrite p (Report sm)) new ->
      (successful sm + failed sm)%nat = total_folders sm /\
      total_folders sm = length (folders cfg) /\
      length (s_results sm) = length (folders cfg).
Proof.
  intros Hnil Hrun.
  destruct (run_cases _ _ _ _ _ Hrun)
    as (sp & ok & s0 & _ & _ & _ & _ & R0 & E0 & _ & Hcase).
  destruct ok.
  - unfold bind in Hcase.
    destruct (process_folders engine clock cfg sched s0)
      as [[[]|e|c] s1] eqn:Hpf;
      destruct (process_folders_spec _ _ _ _ _ Hpf)
        as (extra & new & (R1 & E1 & W1) & Ho).
    + destruct (report_spec _ _ _ _ Hcase) as (_ & E2 & _).
      eexists. split.
      { rewrite E2, E1, E0, <- app_assoc. reflexivity. }
      intros p sm Hin. apply in_app_or in Hin as [Hin|Hin].
      * exfalso. unfold no_writes in W1.
        rewrite forallb_forall in W1. now specialize (W1 _ Hin).
      * destruct Hin as [Heq|[]]. injection Heq as _ <-.
        cbn [summary_of successful failed total_folders s_results].
        rewrite count_where_total, R1, R0, Hnil. cbn [app].
        auto.
    + inversion Hcase; subst. exists new. split; [congruence|].
      intros p sm Hin. exfalso. unfold no_writes in W1.
      rewrite forallb_forall in W1. now specialize (W1 _ Hin).
    + inversion Hcase; subst. exists new. split; [congruence|].
      intros p sm Hin. exfalso. unfold no_writes in W1.
      rewrite forallb_forall in W1. now specialize (W1 _ Hin).
  - destruct Hcase as (-> & ->). exists []. rewrite app_nil_r.
    split; [congruence|]. intros p sm [].
Qed.

(* ---------------------------------------------------------------- *)
(** *** Discovery and [main] *)



Lemma init_spec cfg s :
  init cfg s =
  match Fs.mkdir_p (output_dir cfg) (fs s) with
  | inr fs1 =>
      (Ret tt,
       mkState fs1 (ticks s) (log s)
               (events s ++ [EvMkdir (output_dir cfg)]) [])
  | inl k =>
      (Raise (OSError k (output_dir cfg)),
       mkState (fs s) (ticks s) (log s)
               (events s ++ [EvMkdir (output_dir cfg)]) [])
  end.
Proof.
  unfold init, bind, reset_results, mkdir, fs_call, emit, with_fs.
  cbn [fs ticks log events results].
  destruct (Fs.mkdir_p (output_dir cfg) (fs s)); reflexivity.
Qed.



(** C7 (as amended).  In the loop of [main] over the input paths, a path
    that is a regular file is passed over in silence: nothing is
    printed, no folder is added, and the loop goes on with the paths
    that remain. *)
Theorem regular_file_is_skipped_silently path rest all_folders s :
  Fs.is_file path (fs s) = true ->
  resolve_paths (path :: rest) all_folders s
    = resolve_paths rest all_folders s.
Proof.
  intros H. cbn [resolve_paths]. unfold bind, gets. now rewrite H.
Qed.

(** C1.  [is_valid_test_data_folder] is true exactly when at least two
    of [_subject.json], [unscaled_generic.osim] and [trials] exist under
    the folder; on a path that is not a directory (missing, or a regular
    file) it is false.  It is a total function of the filesystem: it has
    no way to raise. *)
Theorem is_valid_test_data_folder_spec folder_path fs0 :
  (is_valid_test_data_folder folder_path fs0 = true <->
   (2 <= Nat.b2n (Fs.exists_ (folder_path ++ ["_subject.json"]) fs0)
         + Nat.b2n (Fs.exists_ (folder_path ++ ["unscaled_generic.osim"]) fs0)
         + Nat.b2n (Fs.exists_ (folder_path ++ ["trials"]) fs0))%nat)
  /\
  (Fs.is_dir folder_path fs0 = false ->
   is_valid_test_data_folder folder_path fs0 = false).
Proof.
  assert (Hv :
    is_valid_test_data_folder folder_path fs0 =
    (2 <=? Nat.b2n (Fs.exists_ (folder_path ++ ["_subject.json"]) fs0)
         + Nat.b2n (Fs.exists_ (folder_path ++ ["unscaled_generic.osim"]) fs0)
         + Nat.b2n (Fs.exists_ (folder_path ++ ["trials"]) fs0))%nat).
  { unfold is_valid_test_data_folder, indicators, PathOps.join.
    cbn [fold_left].
    change (PathOps.parts_of "_subject.json") with ["_subject.json"].
    change (PathOps.parts_of "unscaled_generic.osim")
      with ["unscaled_generic.osim"].
    change (PathOps.parts_of "trials/") with ["trials"].
    destruct (Fs.exists_ (folder_path ++ ["_subject.json"]) fs0),
             (Fs.exists_ (folder_path ++ ["unscaled_generic.osim"]) fs0),
             (Fs.exists_ (folder_path ++ ["trials"]) fs0); reflexivity. }
  split.
  - rewrite Hv. apply Nat.leb_le.
  - intros Hd. rewrite Hv. unfold Fs.exists_.
    rewrite !(FsFacts.lookup_below_non_dir _ _ _ Hd) by discriminate.
    reflexivity.
Qed.

End RunnerFacts.

(* ------------------------------------------------------------------ *)
(** ** The theorems at the sample inputs *)

(** A regular file is not a valid folder. *)
Lemma is_valid_test_data_folder_spec_witness :
  Fs.is_dir ["notes.txt"] Demo.tree = false /\
  is_valid_test_data_folder ["notes.txt"] Demo.tree = false.
Proof.
  split; [reflexivity|].
  apply (proj2 (is_valid_test_data_folder_spec ["notes.txt"] Demo.tree)).
  reflexivity.
Defined.

(** Under dry run the executor creates the output directory of the
    folder: the filesystem is not left as it was. *)
Lemma dry_run_creates_output_directory :
  let cfg := Demo.cfg false true false [["A"]] in
  let s := initial_state Demo.tree in
  let s' := snd (process_folder Demo.engine Demo.clock cfg ["A"] s) in
  dry_run cfg = true /\
  Fs.exists_ ["results"; "A"] (fs s) = false /\
  Fs.exists_ ["results"; "A"] (fs s') = true.
Proof. vm_compute. repeat split. Qed.

(** The dry run of unit [A]: success at once, and [results/A] is made. *)
Lemma dry_run_only_makes_output_directory_witness :
  let cfg := Demo.cfg false true false [["A"]] in
  let s := initial_state Demo.tree in
  dry_run cfg = true /\
  exists s',
    process_folder Demo.engine Demo.clock cfg ["A"] s
      = (Ret (true, "A", 0%Z), s') /\
    events s' = [EvMkdir ["results"; "A"]] /\
    Fs.is_dir ["results"; "A"] (fs s') = true /\
    ticks s' = 0%nat /\ results s' = [].
Proof.
  intros cfg s. split; [reflexivity|].
  assert (Hmk :
    Fs.mkdir_p (output_dir cfg // PathOps.basename ["A"]) (fs s)
    = inr (Dir [("A", Demo.unit_dir); ("B", Demo.unit_dir);
                ("notes.txt", File (Blob 1));
                ("X_original", Demo.unit_dir);
                ("results", Dir [("A", Dir [])])]))
    by (vm_compute; reflexivity).
  destruct (dry_run_only_makes_output_directory
              Demo.engine Demo.clock cfg ["A"] s _ eq_refl Hmk)
    as (s' & Hrun & Hev & Hfs & Ht & Hr).
  exists s'. repeat split; auto. now rewrite Hfs.
Defined.

(** A fault of the staging leaves [process_folder] as an exception, and
    the result recorded for a failed invocation holds no description of
    the fault. *)
Lemma staging_fault_escapes_and_failure_has_no_description :
  fst (process_folder Demo.engine Demo.clock
         (Demo.cfg false false true [["X_original"]]) ["X_original"]
         (initial_state Demo.blocked))
    = Raise (OSError NotADirectoryError ["results"; "X_original"; "X"])
  /\
  (let res := process_folders_sequential Demo.engine Demo.clock
                (Demo.cfg false false true [["A"]])
                (initial_state Demo.tree) in
   fst res = Ret tt /\
   map r_success (results (snd res)) = [false] /\
   map r_error (results (snd res)) = [None]).
Proof. vm_compute. repeat split. Qed.

(** The engine exits with status 1 on unit [A], with nothing on its
    standard output and [boom] on its standard error: a failure outcome
    with the duration between the two readings of the clock, and the
    status and the standard error are printed. *)
Lemma invocation_faults_are_contained_witness :
  let cfg := Demo.cfg false false false [["A"]] in
  let s := initial_state Demo.tree in
  dry_run cfg = false /\
  fst (prepare cfg ["A"] s) = Ret ["A"] /\
  exists s',
    process_folder Demo.engine Demo.clock cfg ["A"] s
      = (Ret (false, "A", 1%Z), s') /\
    ticks s' = 2%nat /\
    events s' = [EvMkdir ["results"; "A"];
                 EvRun ["python3"; "engine/src/engine.py"; "A"]] /\
    log s' = [(INFO, TProcessing ["A"]); (INFO, TUsingDirectly ["A"]);
              (INFO, TRunningLocal); (ERROR, TFailedToProcess "A");
              (ERROR, TReturnCode 1); (ERROR, TStderr "boom")].
Proof.
  intros cfg s. split; [reflexivity|].
  split; [vm_compute; reflexivity|].
  assert (Hprep : prepare cfg ["A"] s = (Ret ["A"], snd (prepare cfg ["A"] s)))
    by (vm_compute; reflexivity).
  destruct (invocation_faults_are_contained
              Demo.engine Demo.clock cfg ["A"] s ["A"] _ eq_refl Hprep)
    as (success & s' & Hrun & Hticks & Hev & _ & _ & Hcase).
  vm_compute in Hcase. destruct Hcase as (-> & Hlog).
  exists s'. split; [exact Hrun|]. split; [exact Hticks|].
  split; [exact Hev | exact Hlog].
Defined.

(** Under dry run a folder named [X_original] is not copied and no command
    is invoked; and outside dry run, when the staging meets a fault, there
    is neither a copy nor an invocation. *)
Lemma suffix_folder_without_staged_copy :
  PathOps.basename ["X_original"] = ("X" ++ "_original")%string /\
  (let res := process_folder Demo.engine Demo.clock
                (Demo.cfg false true false [["X_original"]])
                ["X_original"] (initial_state Demo.tree) in
   fst res = Ret (true, "X_original", 0%Z) /\
   events (snd res) = [EvMkdir ["results"; "X_original"]] /\
   Fs.exists_ ["results"; "X_original"; "X"] (fs (snd res)) = false)
  /\
  (let res := process_folder Demo.engine Demo.clock
                (Demo.cfg false false false [["X_original"]])
                ["X_original"] (initial_state Demo.blocked) in
   fst res = Raise (OSError NotADirectoryError ["results"; "X_original"; "X"]) /\
   events (snd res) = [EvMkdir ["results"; "X_original"];
                       EvRmtree ["results"; "X_original"; "X"]] /\
   Fs.is_dir ["results"; "X_original"; "X"] (fs (snd res)) = false).
Proof. vm_compute. repeat split. Qed.

(** On a tree where an earlier run has left a copy at
    [results/X_original/X]: the earlier copy is removed, the unit
    [X_original] is copied there anew and the engine runs there; the unit
    [A] is run where it is; under dry run the copy and the command of
    [X_original] are printed and the earlier copy stays. *)
Lemma staging_rule_witness :
  let cfg := Demo.cfg false false false [["X_original"]; ["A"]] in
  let dry := Demo.cfg false true false [["X_original"]] in
  let s := initial_state Demo.restaged in
  let wf := ["results"; "X_original"; "X"] in
  (Fs.lookup wf Demo.restaged
     = Some (Dir [("stale.txt", File (Blob 4))]) /\
   wf <> ["X_original"] /\
   exists success duration s',
     process_folder Demo.engine Demo.clock cfg ["X_original"] s
       = (Ret (success, "X_original", duration), s') /\
     events s' =
       [EvMkdir ["results"; "X_original"];
        EvRmtree wf;
        EvCopytree ["X_original"] wf;
        EvRun ["python3"; "engine/src/engine.py"; "results/X_original/X"]] /\
     Fs.lookup wf (fs s') = Some Demo.unit_dir)
  /\
  (exists success duration s',
     process_folder Demo.engine Demo.clock cfg ["A"] s
       = (Ret (success, "A", duration), s') /\
     events s' = [EvMkdir ["results"; "A"];
                  EvRun ["python3"; "engine/src/engine.py"; "A"]])
  /\
  (exists s',
     process_folder Demo.engine Demo.clock dry ["X_original"] s
       = (Ret (true, "X_original", 0%Z), s') /\
     events s' = [EvMkdir ["results"; "X_original"]] /\
     fs s' = Demo.restaged /\
     log s' =
       [(INFO, TProcessing ["X_original"]);
        (INFO, TCopying ["X_original"] wf);
        (INFO, TDryRunWould wf);
        (INFO, TDryRunCommand
                 "python3 engine/src/engine.py results/X_original/X")]).
Proof.
  intros cfg dry s wf.
  assert (Hmk : Fs.mkdir_p ["results"; "X_original"] (fs s)
                = inr Demo.restaged) by (vm_compute; reflexivity).
  assert (Hrm : (if Fs.exists_ wf Demo.restaged
                 then Fs.rmtree wf Demo.restaged
                 else inr Demo.restaged) = inr Demo.restaged_clean)
    by (vm_compute; reflexivity).
  assert (Hcp : Fs.copytree ["X_original"] wf Demo.restaged_clean
                = inr Demo.restaged_anew) by (vm_compute; reflexivity).
  assert (Hmk_a : Fs.mkdir_p ["results"; "A"] (fs s)
                  = inr (Dir [("A", Demo.unit_dir);
                              ("X_original", Demo.unit_dir);
                              ("results",
                               Dir [("X_original",
                                     Dir [("X", Dir [("stale.txt",
                                                      File (Blob 4))])]);
                                    ("A", Dir [])])]))
    by (vm_compute; reflexivity).
  assert (Hno : forall X, "A"%string <> (X ++ "_original")%string).
  { intros X HX.
    assert (Hend : Str.endswith "A" "_original" = true)
      by (apply StrFacts.endswith_spec; exists X; exact HX).
    vm_compute in Hend. discriminate Hend. }
  split; [|split].
  - split; [vm_compute; reflexivity|].
    destruct (proj1 (staging_rule Demo.engine Demo.clock cfg ["X_original"]
                       s _ Hmk)
                "X" _ _ eq_refl eq_refl Hrm Hcp)
      as (Hne & _ & _ & success & duration & s' & Hrun & Hev & Hfs).
    split; [exact Hne|].
    exists success, duration, s'. split; [exact Hrun|].
    split; [exact Hev|]. rewrite Hfs. vm_compute. reflexivity.
  - destruct (proj1 (proj2 (staging_rule Demo.engine Demo.clock cfg ["A"]
                              s _ Hmk_a))
                eq_refl Hno)
      as (success & duration & s' & Hrun & Hev & _).
    exists success, duration, s'. split; [exact Hrun | exact Hev].
  - exact (proj2 (proj2 (staging_rule Demo.engine Demo.clock dry
                           ["X_original"] s _ Hmk))
             "X" eq_refl eq_refl).
Defined.

(** Folders [A] (fails) and [B]: exit 1 after [A], one result, and no
    action for [B]. *)
Lemma sequential_fail_fast_witness :
  let cfg := Demo.cfg false false false [["A"]; ["B"]] in
  let s := initial_state Demo.tree in
  parallel cfg = false /\ continue_on_error cfg = false /\
  exists s',
    process_folders Demo.engine Demo.clock cfg [] s = (Exit 1%Z, s') /\
    map r_folder (results s') = ["A"] /\
    length (results s') = 1%nat /\
    events s' = [EvMkdir ["results"; "A"];
                 EvRun ["python3"; "engine/src/engine.py"; "A"]].
Proof.
  intros cfg s. split; [reflexivity|]. split; [reflexivity|].
  pose (s_start := snd (print_info (TStartSequential 2) s)).
  pose (s1 := snd (process_folder Demo.engine Demo.clock cfg ["A"] s_start)).
  assert (Ha : process_folder Demo.engine Demo.clock cfg ["A"] s_start
               = (Ret (false, "A", 1%Z), s1))
    by (vm_compute; reflexivity).
  destruct (sequential_fail_fast Demo.engine Demo.clock cfg [] s s_start
              [] ["A"] [["B"]] (0%nat, 0%nat) s_start "A" 1%Z s1
              eq_refl eq_refl eq_refl eq_refl eq_refl Ha)
    as (s' & Hrun & _ & _ & Hres & Hlen & Hev & _).
  assert (Hs1 : results s1 = [] /\
                events s1 = [EvMkdir ["results"; "A"];
                             EvRun ["python3"; "engine/src/engine.py"; "A"]])
    by (vm_compute; split; reflexivity).
  destruct Hs1 as [Hr1 He1].
  exists s'. split; [exact Hrun|].
  split; [rewrite Hres, Hr1; reflexivity|].
  split; [exact Hlen | now rewrite Hev].
Defined.


(** A regular file among the inputs is passed over and nothing is
    printed: no warning is emitted. *)
Lemma regular_file_emits_no_warning :
  let res := resolve_paths [["notes.txt"]] [] (initial_state Demo.tree) in
  Fs.is_file ["notes.txt"] Demo.tree = true /\
  fst res = Ret [] /\
  log (snd res) = [].
Proof. vm_compute. repeat split. Qed.

(** The inputs [notes.txt] and [A] resolve as the input [A] alone. *)
Lemma regular_file_is_skipped_silently_witness :
  Fs.is_file ["notes.txt"] Demo.tree = true /\
  resolve_paths [["notes.txt"]; ["A"]] [] (initial_state Demo.tree)
    = resolve_paths [["A"]] [] (initial_state Demo.tree).
Proof.
  split; [reflexivity|].
  apply (regular_file_is_skipped_silently ["notes.txt"] [["A"]] []
           (initial_state Demo.tree)).
  reflexivity.
Defined.

(** C8, at a failing input.  Sequential mode with [--continue-on-error],
    so no fail-fast abort is possible; the folders are [X_original] and
    [B], and a regular file sits where the staged copy goes.  The fault
    of the staging leaves [process_folder], the sequential loop and [run]:
    [B] is not processed and no report is written.  In the pool the same
    folders give a failure for [X_original], a success for [B], and a
    report. *)
Theorem staging_fault_skips_report :
  let s := initial_state Demo.blocked in
  let seq := run Demo.engine Demo.clock
                 (Demo.cfg false false true [["X_original"]; ["B"]]) [] s in
  let par := run Demo.engine Demo.clock
                 (Demo.cfg true false true [["X_original"]; ["B"]]) [] s in
  (fst seq = Raise (OSError NotADirectoryError ["results"; "X_original"; "X"])
   /\ existsb is_write (events (snd seq)) = false
   /\ Fs.exists_ ["results"; "processing_results.json"] (fs (snd seq)) = false
   /\ results (snd seq) = [])
  /\
  (fst par = Ret tt
   /\ existsb is_write (events (snd par)) = true
   /\ Fs.is_file ["results"; "processing_results.json"] (fs (snd par)) = true
   /\ map r_success (results (snd par)) = [false; true]).
Proof. vm_compute. repeat split. Qed.



(** The report of a pool run on [A] (fails) and [B]: one failure, one
    success, two folders. *)
Lemma report_counts_add_up_witness :
  let cfg := Demo.cfg true false true [["A"]; ["B"]] in
  let s := initial_state Demo.tree in
  let res := run Demo.engine Demo.clock cfg [1; 0]%nat s in
  results s = [] /\
  exists sm,
    Fs.lookup ["results"; "processing_results.json"] (fs (snd res))
      = Some (File (Report sm)) /\
    (successful sm + failed sm)%nat = total_folders sm /\
    total_folders sm = 2%nat /\ failed sm = 1%nat.
Proof.
  intros cfg s res. split; [reflexivity|].
  assert (Hrun : run Demo.engine Demo.clock cfg [1; 0]%nat s
                 = (fst res, snd res))
    by (vm_compute; reflexivity).
  destruct (report_counts_add_up Demo.engine Demo.clock cfg [1; 0]%nat s
              _ _ eq_refl Hrun)
    as (new & Hev & Hall).
  assert (Hfile :
    { sm | Fs.lookup ["results"; "processing_results.json"] (fs (snd res))
           = Some (File (Report sm)) /\
           In (EvWrite ["results"; "processing_results.json"] (Report sm))
              (events (snd res)) /\
           failed sm = 1%nat }).
  { vm_compute. eexists. split; [reflexivity|]. split; [|reflexivity].
    do 4 right. left. reflexivity. }
  destruct Hfile as (sm & Hlook & Hin & Hfailed).
  exists sm. split; [exact Hlook|].
  rewrite Hev in Hin.
  destruct (Hall _ _ Hin) as (Hsum & Htotal & _).
  split; [exact Hsum|]. split; [exact Htotal | exact Hfailed].
Defined.


(* ------------------------------------------------------------------ *)
(** ** Further properties: discovery and validation *)


Lemma scan_items_in directory names fs0 f :
  In f (scan_items directory names fs0) <->
  exists name, In name names /\ f = directory ++ [name] /\
               Fs.is_dir f fs0 = true /\
               is_valid_test_data_folder f fs0 = true.
Proof.
  induction names as [|name names IH]; cbn [scan_items].
  - split; [intros [] | intros (x & [] & _)].
  - destruct (Fs.is_dir (directory ++ [name]) fs0
              && is_valid_test_data_folder (directory ++ [name]) fs0)
      eqn:Hb.
    + apply andb_true_iff in Hb as [Hd Hv]. cbn [In]. rewrite IH. split.
      * intros [<-|(x & Hin & Hx)].
        -- exists name. cbn. auto.
        -- exists x. cbn. tauto.
      * intros (x & [<-|Hin] & Hx).
        -- left. symmetry. apply Hx.
        -- right. exists x. tauto.
    + rewrite IH. split.
      * intros (x & Hin & Hx). exists x. cbn. tauto.
      * intros (x & [<-|Hin] & -> & Hd & Hv).
        -- rewrite Hd, Hv in Hb. discriminate.
        -- exists x. tauto.
Qed.

Lemma find_test_data_folders_returns directory s l s' :
  find_test_data_folders directory s = (Ret l, s') ->
  forall f, In f l ->
    Fs.is_dir f (fs s) = true /\ is_valid_test_data_folder f (fs s) = true.
Proof.
  unfold find_test_data_folders. intros H f Hin.
  destruct (Fs.lookup directory (fs s)) as [[c|es]|];
    inversion H; subst; clear H; [|destruct Hin].
  apply scan_items_in in Hin as (name & _ & _ & Hd & Hv). auto.
Qed.

(** X2.  [validate_folders] returns true exactly when every folder is a
    directory.  It changes nothing but the console, where it prints one
    error for the first folder that is not a directory (missing, or not a
    directory) and nothing when all are. *)
Theorem validate_folders_spec cfg s :
  exists s',
    validate_folders cfg s
      = (Ret (forallb (fun f => Fs.is_dir f (fs s)) (folders cfg)), s') /\
    fs s' = fs s /\ events s' = events s /\ results s' = results s /\
    ticks s' = ticks s /\
    log s' =
      log s ++
      match find (fun f => negb (Fs.is_dir f (fs s))) (folders cfg) with
      | None => []
      | Some f =>
          [(ERROR,
            if Fs.exists_ f (fs s) then TNotADirectory f
            else TFolderMissing f)]
      end.
Proof.
  unfold validate_folders.
  induction (folders cfg) as [|f fl IH]; cbn [validate_folders_loop forallb find].
  - exists s. rewrite app_nil_r. repeat split.
  - unfold bind, gets, print_error, print, ret. cbv beta.
    destruct (Fs.exists_ f (fs s)) eqn:He; cbn [negb].
    + destruct (Fs.is_dir f (fs s)) eqn:Hd; cbn [negb andb].
      * exact IH.
      * eexists. repeat split. cbn [log]. now rewrite He.
    + assert (Hd : Fs.is_dir f (fs s) = false).
      { destruct (Fs.is_dir f (fs s)) eqn:Hd; auto.
        apply FsFacts.is_dir_exists in Hd. congruence. }
      rewrite Hd. cbn [negb andb]. eexists. repeat split.
      cbn [log]. now rewrite He.
Qed.


Lemma find_test_data_folders_on_dir path s :
  Fs.is_dir path (fs s) = true ->
  exists l, find_test_data_folders path s = (Ret l, s).
Proof.
  unfold find_test_data_folders, Fs.is_dir.
  destruct (Fs.lookup path (fs s)) as [[c|es]|]; try discriminate. eauto.
Qed.

(** One turn of the loop of [main] over the input paths. *)
Lemma resolve_paths_step path rest acc s :
  resolve_paths (path :: rest) acc s =
  if Fs.is_file path (fs s) then resolve_paths rest acc s
  else if Fs.is_dir path (fs s) then
    if is_valid_test_data_folder path (fs s)
    then resolve_paths rest (acc ++ [path]) s
    else
      match fst (find_test_data_folders path s) with
      | Ret (f0 :: fl) => resolve_paths rest (acc ++ f0 :: fl) s
      | _ => resolve_paths rest acc (snd (print WARNING (TNoValidIn path) s))
      end
  else resolve_paths rest acc (snd (print WARNING (TPathMissing path) s)).
Proof.
  cbn [resolve_paths]. unfold bind, gets.
  destruct (Fs.is_file path (fs s)); [reflexivity|].
  destruct (Fs.is_dir path (fs s)) eqn:Hd; [|reflexivity].
  destruct (is_valid_test_data_folder path (fs s)); [reflexivity|].
  destruct (find_test_data_folders_on_dir path s Hd) as (found & ->).
  destruct found; reflexivity.
Qed.

(** Discovery with folders already found: they stay in front. *)
Lemma resolve_paths_acc paths :
  forall acc s,
    exists l s',
      resolve_paths paths [] s = (Ret l, s') /\
      resolve_paths paths acc s = (Ret (acc ++ l), s') /\
      fs s' = fs s /\ events s' = events s /\ results s' = results s /\
      (exists msgs, log s' = log s ++ msgs /\
                    forallb (fun m => match fst m with
                                      | WARNING => true | _ => false end)
                            msgs = true) /\
      forall f, In f l ->
        Fs.is_dir f (fs s) = true /\
        is_valid_test_data_folder f (fs s) = true.
Proof.
  induction paths as [|path rest IH]; intros acc s.
  - exists [], s. rewrite app_nil_r.
    do 5 (split; [reflexivity|]).
    split; [exists []; now rewrite app_nil_r | intros f []].
  - rewrite !resolve_paths_step.
    destruct (Fs.is_file path (fs s)) eqn:Hf; [apply IH|].
    destruct (Fs.is_dir path (fs s)) eqn:Hd.
    + destruct (is_valid_test_data_folder path (fs s)) eqn:Hv.
      * destruct (IH (acc ++ [path]) s)
          as (l & s' & H0 & H1 & F & E & R & L & D).
        destruct (IH [path] s) as (l' & s'' & H0' & H1' & _).
        rewrite H0 in H0'. injection H0' as <- <-.
        exists (path :: l), s'. cbn [app] in *.
        rewrite H1', H1, <- app_assoc.
        do 5 (split; [reflexivity || assumption|]).
        split; [exact L|]. intros f [<-|Hin]; auto.
      * destruct (find_test_data_folders_on_dir path s Hd) as (found & Hfind).
        rewrite Hfind. cbn [fst].
        pose proof (find_test_data_folders_returns _ _ _ _ Hfind)
          as Hin_found.
        destruct found as [|f0 fl].
        -- unfold print. cbn [snd].
           match goal with
           | |- context [resolve_paths rest [] ?st] =>
               destruct (IH acc st)
                 as (l & s' & H0 & H1 & F & E & R & (msgs & L & W) & D)
           end.
           cbn [fs ticks log events results] in *.
           exists l, s'.
           do 5 (split; [assumption|]).
           split; [|exact D].
           exists ((WARNING, TNoValidIn path) :: msgs).
           rewrite L, <- app_assoc. split; [reflexivity|]. cbn. exact W.
        -- destruct (IH (acc ++ f0 :: fl) s)
             as (l & s' & H0 & H1 & F & E & R & L & D).
           destruct (IH (f0 :: fl) s) as (l' & s'' & H0' & H1' & _).
           rewrite H0 in H0'. injection H0' as <- <-.
           exists ((f0 :: fl) ++ l), s'. cbn [app] in *.
           rewrite H1', H1, <- app_assoc.
           do 5 (split; [reflexivity || assumption|]).
           split; [exact L|].
           intros f Hin. change (In f ((f0 :: fl) ++ l)) in Hin.
           apply in_app_or in Hin as [Hin|Hin]; [now apply Hin_found | auto].
    + unfold print. cbn [snd].
      match goal with
      | |- context [resolve_paths rest [] ?st] =>
          destruct (IH acc st)
            as (l & s' & H0 & H1 & F & E & R & (msgs & L & W) & D)
      end.
      cbn [fs ticks log events results] in *.
      exists l, s'.
      do 5 (split; [assumption|]).
      split; [|exact D].
      exists ((WARNING, TPathMissing path) :: msgs).
      rewrite L, <- app_assoc. split; [reflexivity|]. cbn. exact W.
Qed.

(** X3.  The discovery loop of [main] always returns; it changes nothing
    but the console, where it prints only warnings; and every folder it
    resolves is a directory that is a valid test-data folder. *)
Theorem discovery_yields_valid_folders paths s :
  exists l s',
    resolve_paths paths [] s = (Ret l, s') /\
    fs s' = fs s /\ events s' = events s /\ results s' = results s /\
    (exists msgs, log s' = log s ++ msgs /\
                  forallb (fun m => match fst m with
                                    | WARNING => true | _ => false end)
                          msgs = true) /\
    forall f, In f l ->
      Fs.is_dir f (fs s) = true /\
      is_valid_test_data_folder f (fs s) = true.
Proof.
  destruct (resolve_paths_acc paths [] s) as (l & s' & H & _ & Hrest).
  exists l, s'. split; [exact H | exact Hrest].
Qed.

Lemma resolve_paths_app p1 p2 :
  forall acc s l s1,
    resolve_paths p1 acc s = (Ret l, s1) ->
    resolve_paths (p1 ++ p2) acc s = resolve_paths p2 l s1.
Proof.
  induction p1 as [|path rest IH]; intros acc s l s1 H.
  - inversion H; subst. reflexivity.
  - cbn [app]. rewrite resolve_paths_step in *.
    destruct (Fs.is_file path (fs s)); [eauto|].
    destruct (Fs.is_dir path (fs s)); [|eauto].
    destruct (is_valid_test_data_folder path (fs s)); [eauto|].
    destruct (fst (find_test_data_folders path s)) as [[|f0 fl]|e|c]; eauto.
Qed.

(** X4.  Discovery goes through the inputs in order: the folders resolved
    from two lists of inputs put end to end are those of the first list
    followed by those of the second. *)
Theorem discovery_of_concatenated_inputs p1 p2 s l1 s1 l2 s2 :
  resolve_paths p1 [] s = (Ret l1, s1) ->
  resolve_paths p2 [] s1 = (Ret l2, s2) ->
  resolve_paths (p1 ++ p2) [] s = (Ret (l1 ++ l2), s2).
Proof.
  intros H1 H2. rewrite (resolve_paths_app _ _ _ _ _ _ H1).
  destruct (resolve_paths_acc p2 l1 s1) as (l & s' & H0 & Hacc & _).
  rewrite H2 in H0. injection H0 as <- <-. exact Hacc.
Qed.

(** X6.  The folders [main] resolves pass [validate_folders] once the
    runner is made: the validation exit of [run] cannot be taken from
    [main]. *)
Theorem resolved_folders_pass_validation args paths s l s_r s_i :
  resolve_paths paths [] s = (Ret l, s_r) ->
  init (config_of args l) s_r = (Ret tt, s_i) ->
  validate_folders (config_of args l) s_i = (Ret true, s_i).
Proof.
  intros Hres Hinit.
  destruct (resolve_paths_acc paths [] s)
    as (l' & s1 & H0 & _ & F & _ & _ & _ & D).
  rewrite Hres in H0. injection H0 as <- <-.
  rewrite init_spec in Hinit.
  destruct (Fs.mkdir_p _ (fs s_r)) as [k|fs1] eqn:Hmk; [discriminate|].
  injection Hinit as <-.
  unfold validate_folders. apply validate_folders_loop_ok.
  intros f Hin. cbn [fs folders config_of].
  eapply FsFacts.mkdir_p_keeps_dirs; eauto.
  rewrite F. apply D. exact Hin.
Qed.

(* ------------------------------------------------------------------ *)
(** ** Further properties: the report *)

Lemma count_where_app keep l1 l2 :
  count_where keep (l1 ++ l2)
  = (count_where keep l1 + count_where keep l2)%nat.
Proof.
  rewrite !count_where_length, filter_app, length_app. reflexivity.
Qed.

Lemma count_where_none keep rs :
  forallb keep rs = true ->
  count_where keep rs = length rs /\
  count_where (fun r => negb (keep r)) rs = 0%nat.
Proof.
  rewrite !count_where_length.
  induction rs as [|r rs IH]; cbn; auto.
  intros H. apply andb_true_iff in H as [Hr Hrs]. rewrite Hr. cbn.
  destruct (IH Hrs). split; congruence.
Qed.

Lemma sum_durations_zero rs :
  forallb (fun r => r_success r && (r_duration r =? 0)%Z) rs = true ->
  sum_durations rs = 0%Z /\ forallb r_success rs = true.
Proof.
  unfold sum_durations. generalize 0%Z at 2 3 as a.
  induction rs as [|r rs IH]; intros a H; cbn in *; [auto|].
  apply andb_true_iff in H as [Hr Hrs].
  apply andb_true_iff in Hr as [Hs Hd]. apply Z.eqb_eq in Hd.
  rewrite Hd, Z.add_0_r, Hs. cbn. auto.
Qed.


Lemma put_in_directory d x m :
  forall fs0 es,
    Fs.lookup d fs0 = Some (Dir es) ->
    exists fs1, Fs.put (d ++ [x]) m fs0 = inr fs1.
Proof.
  induction d as [|c d IH]; intros fs0 es H; cbn in *.
  - injection H as ->. eauto.
  - destruct fs0 as [c0|es0]; try discriminate.
    destruct (Fs.assoc c es0) as [k|] eqn:Ha; try discriminate.
    destruct (IH _ _ H) as (k' & ->). eauto.
Qed.

Lemma results_file_parts cfg :
  results_file cfg = output_dir cfg ++ ["processing_results.json"].
Proof. reflexivity. Qed.

(** X15.  When the output directory is a directory and no directory has
    the name of the report, [save_results] succeeds, and the file
    [processing_results.json] then holds the summary of the results at
    hand, whatever it held before; the results are left as they are.
    When a directory has the name of the report, [save_results] raises
    [IsADirectoryError]. *)
Theorem save_results_round_trip clock cfg s :
  let sm := summary_of cfg (results s) (clock (ticks s)) in
  (Fs.is_dir (output_dir cfg) (fs s) = true ->
   Fs.is_dir (results_file cfg) (fs s) = false ->
   exists s',
     save_results clock cfg s = (Ret tt, s') /\
     Fs.lookup (results_file cfg) (fs s') = Some (File (Report sm)) /\
     results s' = results s)
  /\
  (Fs.is_dir (results_file cfg) (fs s) = true ->
   fst (save_results clock cfg s)
     = Raise (OSError IsADirectoryError (results_file cfg))).
Proof.
  intros sm.
  unfold save_results, bind, gets, now, write_file, fs_call, emit, with_fs,
    print_info, print, Fs.write_file, Fs.is_dir.
  cbn [fs ticks log events results]. fold sm.
  rewrite results_file_parts. unfold PathOps.parent.
  rewrite removelast_last.
  split.
  - intros Hout Hfile.
    destruct (Fs.lookup (output_dir cfg) (fs s)) as [[c|es]|] eqn:Ho;
      try discriminate.
    destruct (put_in_directory (output_dir cfg) "processing_results.json"
                (File (Report sm)) _ _ Ho) as (fs1 & Hput).
    destruct (Fs.lookup (output_dir cfg ++ ["processing_results.json"])
                (fs s)) as [[c|es']|]; try discriminate;
      rewrite Hput; cbn [fs ticks log events results];
      eexists; (split; [reflexivity|]);
      cbn [fs ticks log events results];
      (split; [eapply FsFacts.lookup_put; eauto | reflexivity]).
  - intros Hfile.
    destruct (Fs.lookup (output_dir cfg ++ ["processing_results.json"])
                (fs s)) as [[c|es']|]; try discriminate.
    reflexivity.
Qed.

Lemma print_failed_spec rs s :
  print_failed rs s =
  (Ret tt,
   mkState (fs s) (ticks s)
     (log s ++
      map (fun r => (WARNING, TFailedFolder (r_folder r)))
          (filter (fun r => negb (r_success r)) rs))
     (events s) (results s)).
Proof.
  revert s. induction rs as [|r rs IH]; intros s; cbn [print_failed].
  - unfold ret. cbn. rewrite app_nil_r. now destruct s.
  - unfold bind, print_warning, print, ret. cbn [filter].
    destruct (r_success r); cbn [negb map].
    + apply IH.
    + rewrite IH. cbn [fs ticks log events results].
      now rewrite <- app_assoc.
Qed.

Lemma count_where_positive keep rs :
  (0 <? count_where keep rs)%nat = existsb keep rs.
Proof.
  rewrite count_where_length.
  induction rs as [|r rs IH]; cbn; auto.
  destruct (keep r); cbn; auto.
Qed.

Lemma existsb_filter {A} (keep : A -> bool) (l : list A) :
  existsb keep l = match filter keep l with [] => false | _ => true end.
Proof.
  induction l as [|x l IH]; cbn; auto. destruct (keep x); cbn; auto.
Qed.

(** X16.  [print_summary] changes nothing but the console.  The number
    of failures it prints, computed as the number of results less the
    successes, is the [failed] count of the report; below the heading
    [Failed folders], printed exactly when a result is a failure, it
    lists every failed folder once, in the order of the results. *)
Theorem print_summary_lists_failures cfg s :
  let rs := results s in
  let failures := filter (fun r => negb (r_success r)) rs in
  exists s',
    print_summary cfg s = (Ret tt, s') /\
    fs s' = fs s /\ events s' = events s /\ results s' = rs /\
    log s' =
      log s ++
      [(INFO, TRule); (INFO, TSummaryTitle); (INFO, TRule);
       (INFO, TTotalFolders (length (folders cfg)));
       (INFO, TSuccessful (successful (summary_of cfg rs 0%Z)));
       (INFO, TFailedCount (failed (summary_of cfg rs 0%Z)));
       (INFO, TTotalTime (total_duration (summary_of cfg rs 0%Z)))] ++
      (match failures with
       | [] => []
       | _ :: _ =>
           (WARNING, TFailedFolders)
             :: map (fun r => (WARNING, TFailedFolder (r_folder r)))
                    failures
       end) ++
      [(INFO, TRule)].
Proof.
  cbv zeta.
  unfold print_summary, bind, gets, print_info, print_warning, print, ret.
  cbn [fs ticks log events results summary_of successful failed
       total_duration].
  assert (Hfailed : (length (results s) - count_where r_success (results s))%nat
                    = count_where (fun r => negb (r_success r)) (results s)).
  { pose proof (count_where_total r_success (results s)). lia. }
  rewrite Hfailed, count_where_positive, existsb_filter.
  destruct (filter (fun r => negb (r_success r)) (results s))
    as [|r0 fl] eqn:Hf.
  - eexists. split; [reflexivity|]. cbn [fs ticks log events results].
    repeat split. rewrite <- !app_assoc. reflexivity.
  - rewrite print_failed_spec. cbn [fs ticks log events results].
    rewrite Hf.
    eexists. split; [reflexivity|]. cbn [fs ticks log events results].
    repeat split. rewrite <- !app_assoc. reflexivity.
Qed.

(* ------------------------------------------------------------------ *)
(** ** Further properties: actions and the order of the pool *)

Lemma only_events_still allowed {A} (m : M A) :
  (forall s o s', m s = (o, s') -> events s' = events s) ->
  only_events allowed m.
Proof.
  intros H s o s' Hm. exists []. rewrite app_nil_r. split; eauto.
Qed.

Lemma only_events_quiet allowed {A} (m : M A) :
  quiet m -> only_events allowed m.
Proof.
  intros Hq. apply only_events_still. intros s o s' H.
  now destruct (Hq _ _ _ H) as (_ & E & _).
Qed.

Lemma only_events_bind allowed {A B} (m : M A) (k : A -> M B) :
  only_events allowed m -> (forall a, only_events allowed (k a)) ->
  only_events allowed (bind m k).
Proof.
  intros Hm Hk s o s' H. unfold bind in H.
  destruct (m s) as [[a|e|c] s1] eqn:E;
    destruct (Hm _ _ _ E) as (new1 & E1 & W1).
  - destruct (Hk _ _ _ _ H) as (new2 & E2 & W2).
    exists (new1 ++ new2). rewrite E2, E1, app_assoc.
    split; auto. now rewrite forallb_app, W1, W2.
  - inversion H; subst. eauto.
  - inversion H; subst. eauto.
Qed.

Lemma only_events_try allowed {A} (body : M A) (handler : Exn -> M A) :
  only_events allowed body -> (forall e, only_events allowed (handler e)) ->
  only_events allowed (try_except body handler).
Proof.
  intros Hm Hk s o s' H. unfold try_except in H.
  destruct (body s) as [[a|e|c] s1] eqn:E;
    destruct (Hm _ _ _ E) as (new1 & E1 & W1).
  - inversion H; subst. eauto.
  - destruct (Hk _ _ _ _ H) as (new2 & E2 & W2).
    exists (new1 ++ new2). rewrite E2, E1, app_assoc.
    split; auto. now rewrite forallb_app, W1, W2.
  - inversion H; subst. eauto.
Qed.

Lemma only_events_fs_call allowed ev op p :
  allowed ev = true -> only_events allowed (fs_call ev op p).
Proof.
  intros Hev s o s' H. unfold fs_call in H. exists [ev].
  destruct (op (fs s)); inversion H; subst; cbn; rewrite Hev; auto.
Qed.

Lemma only_events_append allowed r : only_events allowed (append_result r).
Proof. apply only_events_still. intros s o s' H. now inversion H. Qed.

Lemma only_events_exit allowed {A} c : only_events allowed (@sys_exit A c).
Proof. apply only_events_still. intros s o s' H. now inversion H. Qed.

Lemma only_events_raise allowed {A} e : only_events allowed (@raise A e).
Proof. apply only_events_still. intros s o s' H. now inversion H. Qed.

Lemma nth_remove_nth_perm {A} (k : nat) (l : list A) (d : A) :
  (k < length l)%nat -> Permutation (nth k l d :: remove_nth k l) l.
Proof.
  revert k. induction l as [|x l IH]; intros k Hk; cbn in Hk; [lia|].
  destruct k; cbn.
  - apply Permutation_refl.
  - eapply perm_trans; [apply perm_swap|].
    apply perm_skip. apply IH. lia.
Qed.

(* ------------------------------------------------------------------ *)
(** ** Further properties: executor, orchestrators and [main] *)

Section Coverage.

Variable engine : list string -> Node -> ProcResult * Node.
Variable clock : nat -> Z.

(** X5.  When no folder is resolved, [main] prints an error and exits
    with status 1 before the runner is made: no directory is created and
    no action is issued. *)
Theorem main_without_folders_leaves_no_trace args sched s s_r :
  resolve_paths (a_paths args) [] s = (Ret [], s_r) ->
  exists s',
    main engine clock args sched s = (Exit 1%Z, s') /\
    fs s' = fs s /\ events s' = events s /\ results s' = results s /\
    log s' = log s_r ++ [(ERROR, TNoValidAtAll)].
Proof.
  intros H.
  destruct (resolve_paths_acc (a_paths args) [] s)
    as (l & s1 & H0 & _ & F & E & R & _).
  rewrite H in H0. injection H0 as <- <-.
  unfold main, bind. rewrite H. unfold print, sys_exit.
  eexists. split; [reflexivity|]. cbn [fs ticks log events results].
  auto.
Qed.

(** *** The executor *)

Lemma prepare_ticks cfg folder_path s o s1 :
  prepare cfg folder_path s = (o, s1) -> ticks s1 = ticks s.
Proof.
  unfold prepare, bind, print_info, print, mkdir, rmtree, copytree,
    fs_call, gets, ret, emit, with_fs.
  cbn [fs ticks log events results].
  destruct (Fs.mkdir_p _ (fs s)); [intros H; now inversion H|].
  destruct (Str.endswith _ _); cbn [fs ticks log events results];
    [|intros H; now inversion H].
  destruct (dry_run cfg); cbn [negb fs ticks log events results];
    [intros H; now inversion H|].
  destruct (Fs.exists_ _ _); cbn [fs ticks log events results].
  - destruct (Fs.rmtree _ _); cbn [fs ticks log events results];
      [intros H; now inversion H|].
    destruct (Fs.copytree _ _ _); intros H; now inversion H.
  - destruct (Fs.copytree _ _ _); intros H; now inversion H.
Qed.

Lemma invoke_outcome cfg folder_name working_folder s1 :
  exists success s',
    invoke engine clock cfg folder_name working_folder s1
      = (Ret (success, folder_name,
              (clock (S (ticks s1)) - clock (ticks s1))%Z), s').
Proof.
  unfold invoke, try_except, bind, now, subprocess_run,
    print_info, print_success, print_error, print, ret, emit, with_fs.
  destruct (use_docker cfg); cbn [fs ticks log events results];
    (match goal with
     | |- context [engine ?c ?f] =>
         destruct (engine c f) as [[rc out err|e] fs'] eqn:He
     end;
     [ destruct (rc =? 0)%Z | destruct e ]);
    repeat match goal with
           | |- context [Str.nonempty ?x] => destruct (Str.nonempty x)
           end;
    cbn [fs ticks log events results];
    do 2 eexists; reflexivity.
Qed.

Lemma process_folder_returns cfg folder_path s success name d s' :
  process_folder engine clock cfg folder_path s
    = (Ret (success, name, d), s') ->
  name = PathOps.basename folder_path /\
  d = (if dry_run cfg then 0
       else clock (S (ticks s)) - clock (ticks s))%Z /\
  (dry_run cfg = true -> success = true).
Proof.
  intros H. unfold process_folder in H. unfold bind at 1 in H.
  destruct (prepare cfg folder_path s) as [[wf|e|c] s1] eqn:Hp;
    try discriminate.
  apply prepare_ticks in Hp.
  destruct (dry_run cfg).
  - unfold bind, print_info, print, ret in H.
    destruct (use_docker cfg); inversion H; auto.
  - destruct (invoke_outcome cfg (PathOps.basename folder_path) wf s1)
      as (b & s2 & Hinv).
    rewrite Hinv, Hp in H. inversion H; subst.
    repeat split; auto. discriminate.
Qed.

(** X7.  An outcome of [process_folder] names the folder by the last
    component of its path.  Its duration is [0] under dry run and
    otherwise the difference of the two clock readings taken around the
    invocation, so it is not negative when the clock does not go back. *)
Theorem process_folder_outcome cfg folder_path s success name d s' :
  process_folder engine clock cfg folder_path s
    = (Ret (success, name, d), s') ->
  name = PathOps.basename folder_path /\
  d = (if dry_run cfg then 0
       else clock (S (ticks s)) - clock (ticks s))%Z /\
  (dry_run cfg = true -> success = true) /\
  ((forall k, (clock k <= clock (S k))%Z) -> (0 <= d)%Z).
Proof.
  intros H.
  destruct (process_folder_returns _ _ _ _ _ _ _ H) as (Hn & Hd & Hs).
  repeat split; auto.
  intros Hmono. rewrite Hd. destruct (dry_run cfg); [lia|].
  specialize (Hmono (ticks s)). lia.
Qed.

(** X8.  [process_folder] never changes [self.results], never leaves
    through [sys.exit] and never writes a file, whatever it returns or
    raises. *)
Theorem process_folder_frame cfg folder_path s o s' :
  process_folder engine clock cfg folder_path s = (o, s') ->
  results s' = results s /\
  (forall c, o <> Exit c) /\
  exists new,
    events s' = events s ++ new /\
    forallb (fun e => negb (is_write e)) new = true.
Proof.
  revert s o s'.
  change (worker (process_folder engine clock cfg folder_path)).
  unfold process_folder, prepare, invoke, mkdir, rmtree,
    print_info, print_success, print_error.
  pose proof (worker_now clock) as Hnow.
  pose proof (worker_subprocess_run engine) as Hrun.
  frame.
Qed.

(** *** The sequential orchestrator *)

(** What the loop has recorded when it runs to its end. *)
Lemma sequential_loop_outcomes cfg fl :
  forall sc fc s sc' fc' s',
    sequential_loop engine clock cfg fl sc fc s = (Ret (sc', fc'), s') ->
    exists extra,
      results s' = results s ++ extra /\
      map r_folder extra = map PathOps.basename fl /\
      sc' = (sc + count_where r_success extra)%nat /\
      fc' = (fc + count_where (fun r => negb (r_success r)) extra)%nat /\
      (continue_on_error cfg = false -> forallb r_success extra = true) /\
      (dry_run cfg = true ->
       forallb (fun r => r_success r && (r_duration r =? 0)%Z) extra
       = true).
Proof.
  induction fl as [|folder rest IH]; intros sc fc s sc' fc' s' H.
  - inversion H; subst. exists []. cbn. rewrite app_nil_r.
    repeat split; auto.
  - cbn [sequential_loop] in H. unfold bind at 1 in H.
    destruct (process_folder engine clock cfg folder s)
      as [[[[success name] d]|e|c] s1] eqn:Hpf; try discriminate.
    destruct (process_folder_returns _ _ _ _ _ _ _ Hpf)
      as (-> & Hd & Hdry).
    destruct (worker_process_folder _ _ _ _ _ _ _ Hpf) as (R1 & _).
    unfold bind, now, append_result in H.
    cbn [fs ticks log events results] in H.
    destruct success.
    + apply IH in H as (extra & R & N & Hsc & Hfc & Hff & Hdr).
      cbn [results] in R.
      eexists (_ :: extra). split.
      { rewrite R, R1, <- app_assoc. reflexivity. }
      split; [cbn [map r_folder]; now rewrite N|].
      change (?x :: extra) with ([x] ++ extra).
      rewrite !count_where_app.
      unfold count_where at 1 3. cbn [filter r_success negb map].
      change (list_sum [1%nat]) with 1%nat.
      change (list_sum (@nil nat)) with 0%nat.
      split; [lia|]. split; [lia|]. split.
      * intros Hc. cbn [forallb app r_success]. now rewrite (Hff Hc).
      * intros Hy. cbn [forallb app r_success r_duration].
        rewrite (Hdr Hy), Hd, Hy. reflexivity.
    + destruct (continue_on_error cfg) eqn:Hc; cbn [negb] in H.
      * unfold ret in H.
        apply IH in H as (extra & R & N & Hsc & Hfc & Hff & Hdr).
        cbn [results] in R.
        eexists (_ :: extra). split.
        { rewrite R, R1, <- app_assoc. reflexivity. }
        split; [cbn [map r_folder]; now rewrite N|].
        change (?x :: extra) with ([x] ++ extra).
        rewrite !count_where_app.
        unfold count_where at 1 3. cbn [filter r_success negb map].
      change (list_sum [1%nat]) with 1%nat.
      change (list_sum (@nil nat)) with 0%nat.
        split; [lia|]. split; [lia|]. split.
        -- discriminate.
        -- intros Hy. specialize (Hdry Hy). discriminate.
      * unfold print_error, print, sys_exit in H. discriminate.
Qed.

(** X9.  When the sequential orchestrator runs to its end, it has
    recorded the folders in their order, each under the last component of
    its path, and the counts of its closing message are the numbers of
    successes and of failures among these records. *)
Theorem sequential_results_follow_folders cfg s s' :
  process_folders_sequential engine clock cfg s = (Ret tt, s') ->
  exists extra before,
    results s' = results s ++ extra /\
    map r_folder extra = map PathOps.basename (folders cfg) /\
    log s' =
      before ++
      [(INFO, TSequentialDone
                (count_where r_success extra)
                (count_where (fun r => negb (r_success r)) extra))].
Proof.
  unfold process_folders_sequential, bind, print_info, print.
  intros H.
  match type of H with
  | context [sequential_loop _ _ _ _ _ _ ?st] =>
      destruct (sequential_loop engine clock cfg (folders cfg) 0 0 st)
        as [[[sc fc]|e|c] s1] eqn:Hloop; try discriminate;
      destruct (sequential_loop_outcomes _ _ _ _ _ _ _ _ Hloop)
        as (extra & R & N & -> & -> & _)
  end.
  inversion H; subst. cbn [fs ticks log events results fst snd] in *.
  exists extra, (log s1). repeat split; auto.
Qed.

Lemma process_folders_sequential_outcomes cfg s s' :
  process_folders_sequential engine clock cfg s = (Ret tt, s') ->
  exists extra,
    results s' = results s ++ extra /\
    (continue_on_error cfg = false -> forallb r_success extra = true) /\
    (dry_run cfg = true ->
     forallb (fun r => r_success r && (r_duration r =? 0)%Z) extra = true).
Proof.
  unfold process_folders_sequential, bind, print_info, print.
  intros H.
  match type of H with
  | context [sequential_loop _ _ _ _ _ _ ?st] =>
      destruct (sequential_loop engine clock cfg (folders cfg) 0 0 st)
        as [[[sc fc]|e|c] s1] eqn:Hloop; try discriminate;
      destruct (sequential_loop_outcomes _ _ _ _ _ _ _ _ Hloop)
        as (extra & R & _ & _ & _ & Hff & Hdr)
  end.
  inversion H; subst. cbn [fs ticks log events results] in *.
  exists extra. auto.
Qed.

(** The reports of a sequential [run]. *)
Lemma sequential_run_reports cfg sched s o s' :
  parallel cfg = false ->
  results s = [] ->
  run engine clock cfg sched s = (o, s') ->
  exists new,
    events s' = events s ++ new /\
    forall p sm,
      In (EvWrite p (Report sm)) new ->
      exists rs ts,
        sm = summary_of cfg rs ts /\
        length rs = length (folders cfg) /\
        (continue_on_error cfg = false -> forallb r_success rs = true) /\
        (dry_run cfg = true ->
         forallb (fun r => r_success r && (r_duration r =? 0)%Z) rs
         = true).
Proof.
  intros Hpar Hnil Hrun.
  destruct (run_cases _ _ _ _ _ _ _ Hrun)
    as (sp & ok & s0 & _ & _ & _ & _ & R0 & E0 & _ & Hcase).
  destruct ok.
  - unfold bind in Hcase.
    destruct (process_folders engine clock cfg sched s0)
      as [[[]|e|c] s1] eqn:Hpf;
      destruct (process_folders_spec _ _ _ _ _ _ _ Hpf)
        as (extra & new & (R1 & E1 & W1) & Ho).
    + destruct (report_spec _ _ _ _ _ Hcase) as (_ & E2 & _).
      unfold process_folders in Hpf. rewrite Hpar in Hpf.
      destruct (process_folders_sequential_outcomes _ _ _ Hpf)
        as (rs & R & Hff & Hdr).
      assert (rs = extra)
        by (rewrite R1 in R; eapply app_inv_head; eauto).
      subst rs. cbn in Ho.
      rewrite R0, Hnil in R. cbn [app] in R.
      eexists. split.
      { rewrite E2, E1, E0, <- app_assoc. reflexivity. }
      intros p sm Hin. apply in_app_or in Hin as [Hin|Hin].
      * exfalso. unfold no_writes in W1.
        rewrite forallb_forall in W1. now specialize (W1 _ Hin).
      * destruct Hin as [Heq|[]]. injection Heq as _ <-.
        rewrite R. eauto 6.
    + inversion Hcase; subst. exists new. split; [congruence|].
      intros p sm Hin. exfalso. unfold no_writes in W1.
      rewrite forallb_forall in W1. now specialize (W1 _ Hin).
    + inversion Hcase; subst. exists new. split; [congruence|].
      intros p sm Hin. exfalso. unfold no_writes in W1.
      rewrite forallb_forall in W1. now specialize (W1 _ Hin).
  - destruct Hcase as (-> & ->). exists []. rewrite app_nil_r.
    split; [congruence|]. intros p sm [].
Qed.

(** X10.  In sequential mode without [--continue-on-error], a report is
    written only when no folder failed: every report [run] writes has
    [failed = 0] and [successful = total_folders]. *)
Theorem fail_fast_report_has_no_failure cfg sched s o s' :
  parallel cfg = false ->
  continue_on_error cfg = false ->
  results s = [] ->
  run engine clock cfg sched s = (o, s') ->
  exists new,
    events s' = events s ++ new /\
    forall p sm,
      In (EvWrite p (Report sm)) new ->
      failed sm = 0%nat /\ successful sm = total_folders sm.
Proof.
  intros Hpar Hcont Hnil Hrun.
  destruct (sequential_run_reports _ _ _ _ _ Hpar Hnil Hrun)
    as (new & E & Hall).
  exists new. split; [exact E|]. intros p sm Hin.
  destruct (Hall _ _ Hin) as (rs & ts & -> & Hlen & Hff & _).
  destruct (count_where_none _ _ (Hff Hcont)) as (Hall_ok & H0).
  cbn [summary_of failed successful total_folders]. split; congruence.
Qed.

(** X11.  A sequential dry run that writes a report reports every folder
    as a success: [failed = 0], [successful = total_folders] and
    [total_duration = 0]. *)
Theorem sequential_dry_run_report cfg sched s o s' :
  parallel cfg = false ->
  dry_run cfg = true ->
  results s = [] ->
  run engine clock cfg sched s = (o, s') ->
  exists new,
    events s' = events s ++ new /\
    forall p sm,
      In (EvWrite p (Report sm)) new ->
      failed sm = 0%nat /\ successful sm = total_folders sm /\
      total_duration sm = 0%Z.
Proof.
  intros Hpar Hdry Hnil Hrun.
  destruct (sequential_run_reports _ _ _ _ _ Hpar Hnil Hrun)
    as (new & E & Hall).
  exists new. split; [exact E|]. intros p sm Hin.
  destruct (Hall _ _ Hin) as (rs & ts & -> & Hlen & _ & Hdr).
  destruct (sum_durations_zero _ (Hdr Hdry)) as (Hsum & Hok).
  destruct (count_where_none _ _ Hok) as (Hall_ok & H0).
  cbn [summary_of failed successful total_folders total_duration].
  repeat split; congruence.
Qed.

(** *** Dry run: what is never done *)

Lemma only_events_now allowed : only_events allowed (now clock).
Proof. apply only_events_still. intros s o s' H. now inversion H. Qed.

Ltac dry_frame :=
  repeat first
    [ assumption
    | apply only_events_quiet; solve [auto with frame]
    | apply only_events_bind; [ | intros ? ]
    | apply only_events_try; [ | intros ? ]
    | apply only_events_fs_call; reflexivity
    | apply only_events_now
    | apply only_events_append
    | apply only_events_exit
    | apply only_events_raise
    | assumption
    | match goal with
      | |- only_events _ (if ?b then _ else _) => destruct b
      | |- only_events _ (match ?e with _ => _ end) => destruct e
      end
    | apply only_events_quiet; solve [frame] ].

Lemma dry_process_folder cfg folder_path :
  dry_run cfg = true ->
  only_events is_mkdir_or_write
    (process_folder engine clock cfg folder_path).
Proof.
  intros Hdry. unfold process_folder, prepare, mkdir, print_info.
  rewrite Hdry. cbn [negb]. dry_frame.
Qed.

Lemma dry_sequential_loop cfg fl :
  dry_run cfg = true ->
  forall sc fc,
    only_events is_mkdir_or_write
      (sequential_loop engine clock cfg fl sc fc).
Proof.
  intros Hdry. pose proof (dry_process_folder cfg) as Hpf.
  induction fl as [|folder rest IH]; intros sc fc;
    cbn [sequential_loop]; unfold print_error.
  - dry_frame.
  - specialize (Hpf folder Hdry).
    apply only_events_bind; [exact Hpf|]. intros [[b n] d].
    dry_frame; apply IH.
Qed.

Lemma dry_collect cfg folder :
  dry_run cfg = true ->
  only_events is_mkdir_or_write (collect engine clock cfg folder).
Proof.
  intros Hdry. pose proof (dry_process_folder cfg folder Hdry) as Hpf.
  unfold collect, print_error, print_success.
  apply only_events_try.
  - apply only_events_bind; [exact Hpf|]. intros [[b n] d]. dry_frame.
  - intros e. dry_frame.
Qed.

Lemma dry_pool_loop cfg :
  dry_run cfg = true ->
  forall n sched pending,
    only_events is_mkdir_or_write
      (pool_loop engine clock cfg sched pending n).
Proof.
  intros Hdry. induction n as [|n IH]; intros sched pending;
    cbn [pool_loop].
  - dry_frame.
  - destruct pending as [|first rest]; [dry_frame|].
    apply only_events_bind; [now apply dry_collect|]. intros _. apply IH.
Qed.

Lemma only_events_report cfg :
  only_events is_mkdir_or_write (report clock cfg).
Proof.
  unfold report, save_results, write_file, print_info, print_warning,
    print_success.
  pose proof (quiet_print_summary cfg) as Hsum.
  apply only_events_quiet with (allowed := is_mkdir_or_write) in Hsum.
  dry_frame.
Qed.

(** X12.  Under dry run, in either mode, [run] invokes no command and
    neither removes nor copies a tree: all its actions are creations of
    directories and the writing of the report. *)
Theorem dry_run_never_invokes cfg sched s o s' :
  dry_run cfg = true ->
  run engine clock cfg sched s = (o, s') ->
  exists new,
    events s' = events s ++ new /\
    forallb is_mkdir_or_write new = true.
Proof.
  intros Hdry. revert s o s'.
  change (only_events is_mkdir_or_write (run engine clock cfg sched)).
  pose proof (dry_sequential_loop cfg (folders cfg) Hdry 0%nat 0%nat) as Hs.
  pose proof (dry_pool_loop cfg Hdry (length (folders cfg)) sched
                (folders cfg)) as Hp.
  pose proof (only_events_report cfg) as Hr.
  pose proof (quiet_validate_folders_loop (folders cfg)) as Hv.
  apply only_events_quiet with (allowed := is_mkdir_or_write) in Hv.
  unfold run, process_folders, process_folders_parallel,
    process_folders_sequential, validate_folders, print_info.
  dry_frame.
Qed.

(** *** The pool *)

(** X13.  The collecting loop of the pool always goes on to the next
    future, and records one result for the one at hand: the outcome of
    [process_folder] when the task returned, and when it raised, a failure
    with duration [0], the path of the folder and the exception, which is
    also printed. *)
Theorem collect_records_every_outcome cfg folder s :
  exists s',
    collect engine clock cfg folder s = (Ret tt, s') /\
    match process_folder engine clock cfg folder s with
    | (Ret (success, name, d), s1) =>
        results s' =
          results s ++ [mkResult name success d None (clock (ticks s1))]
    | (Raise e, s1) =>
        results s' =
          results s ++ [mkResult (PathOps.to_str folder) false 0%Z (Some e)
                                 (clock (ticks s1))] /\
        In (ERROR, TParallelException folder e) (log s')
    | (Exit _, _) => False
    end.
Proof.
  unfold collect, try_except. unfold bind at 1.
  destruct (process_folder engine clock cfg folder s)
    as [[[[success name] d]|e|c] s1] eqn:Hpf;
    destruct (worker_process_folder _ _ _ _ _ _ _ Hpf) as (R1 & X & _).
  - unfold bind, now, append_result, print_success, print_error, print.
    cbn [fs ticks log events results].
    destruct success; cbn [fs ticks log events results];
      eexists; (split; [reflexivity|]);
      cbn [fs ticks log events results]; now rewrite R1.
  - unfold bind, now, append_result, print_error, print.
    cbn [fs ticks log events results].
    eexists. split; [reflexivity|]. cbn [fs ticks log events results].
    rewrite R1. split; [reflexivity|].
    apply in_or_app. right. left. reflexivity.
  - now destruct (X c).
Qed.

Lemma pool_loop_order cfg :
  forall n sched pending s,
    n = length pending ->
    pool_loop engine clock cfg sched pending n s
      = collect_all engine clock cfg (pool_order sched pending n) s /\
    Permutation (pool_order sched pending n) pending.
Proof.
  induction n as [|n IH]; intros sched pending s Hn.
  - destruct pending; [|discriminate]. split; [reflexivity|constructor].
  - destruct pending as [|first rest]; [discriminate|].
    cbn [pool_loop pool_order collect_all].
    set (k := (hd 0%nat sched mod length (first :: rest))%nat).
    assert (Hk : (k < length (first :: rest))%nat)
      by (apply Nat.mod_upper_bound; discriminate).
    assert (Hlen : n = length (remove_nth k (first :: rest))).
    { rewrite remove_nth_length by exact Hk. cbn in *. lia. }
    split.
    + unfold bind.
      destruct (collect engine clock cfg (nth k (first :: rest) first) s)
        as [[[]|e|c] s1]; try reflexivity.
      apply (IH (tl sched) _ s1 Hlen).
    + eapply perm_trans; [|apply (nth_remove_nth_perm k _ first Hk)].
      apply perm_skip. apply (IH (tl sched) _ s Hlen).
Qed.




(** X14.  Whatever the schedule, the pool hands every submitted folder to
    the collecting loop exactly once: [process_folders_parallel] is the
    collecting loop run over a rearrangement of [self.folders]. *)
Theorem pool_collects_each_folder_once cfg sched s :
  folders cfg <> [] ->
  exists order,
    Permutation order (folders cfg) /\
    process_folders_parallel engine clock cfg sched s
      = (print_info (TStartParallel (length (folders cfg))) ;;
         collect_all engine clock cfg order) s.
Proof.
  intros Hne.
  exists (pool_order sched (folders cfg) (length (folders cfg))).
  destruct (pool_loop_order cfg (length (folders cfg)) sched (folders cfg)
              (snd (print_info (TStartParallel (length (folders cfg))) s))
              eq_refl) as [Heq Hperm].
  split; [exact Hperm|].
  unfold process_folders_parallel, bind, print_info, print in *.
  cbn [snd] in Heq.
  destruct (Nat.min (length (folders cfg)) 4 =? 0)%nat eqn:Hmin.
  - apply Nat.eqb_eq in Hmin. destruct (folders cfg); [congruence|].
    cbn [length] in Hmin. lia.
  - exact Heq.
Qed.

(** *** Dry run and real run *)

Lemma prepare_working_folder cfg folder_path s working_folder s1 :
  prepare cfg folder_path s = (Ret working_folder, s1) ->
  working_folder =
    if Str.endswith (PathOps.basename folder_path) "_original"
    then output_dir cfg // PathOps.basename folder_path
           // Str.drop_last 9 (PathOps.basename folder_path)
    else folder_path.
Proof.
  unfold prepare, bind, print_info, print, mkdir, rmtree, copytree,
    fs_call, gets, ret, emit, with_fs.
  cbn [fs ticks log events results].
  destruct (Fs.mkdir_p _ (fs s)); [discriminate|].
  destruct (Str.endswith _ _); cbn [fs ticks log events results];
    [|intros H; now inversion H].
  destruct (dry_run cfg); cbn [negb fs ticks log events results];
    [intros H; now inversion H|].
  destruct (Fs.exists_ _ _); cbn [fs ticks log events results].
  - destruct (Fs.rmtree _ _); cbn [fs ticks log events results];
      [discriminate|].
    destruct (Fs.copytree _ _ _); intros H; now inversion H.
  - destruct (Fs.copytree _ _ _); intros H; now inversion H.
Qed.

(** X17.  The text a dry run prints for a folder spells the command a real
    run invokes for it: for two configurations that differ in the dry-run
    flag only, the text printed by the dry run is the argument list of
    the one invocation of the real run, joined by single spaces.  (The
    text does not delimit the arguments: one that holds a space reads as
    two words.) *)
Theorem dry_run_prints_the_command_run
        cfg_d cfg_r folder_path s_d r_d s_d' s_r r_r s_r' :
  dry_run cfg_d = true ->
  dry_run cfg_r = false ->
  use_docker cfg_d = use_docker cfg_r ->
  output_dir cfg_d = output_dir cfg_r ->
  docker_image cfg_d = docker_image cfg_r ->
  engine_script cfg_d = engine_script cfg_r ->
  process_folder engine clock cfg_d folder_path s_d = (Ret r_d, s_d') ->
  process_folder engine clock cfg_r folder_path s_r = (Ret r_r, s_r') ->
  exists cmd before,
    In (INFO, TDryRunCommand (String.concat " " cmd)) (log s_d') /\
    events s_r' = before ++ [EvRun cmd].
Proof.
  intros Hd Hr Hdocker Hout Himg Hscript Hdry Hreal.
  unfold process_folder in Hdry, Hreal.
  unfold bind at 1 in Hdry. unfold bind at 1 in Hreal.
  destruct (prepare cfg_d folder_path s_d) as [[wf_d|e|c] s1] eqn:Hpd;
    try discriminate.
  destruct (prepare cfg_r folder_path s_r) as [[wf_r|e|c] s2] eqn:Hpr;
    try discriminate.
  apply prepare_working_folder in Hpd, Hpr.
  rewrite Hout in Hpd. rewrite <- Hpr in Hpd. subst wf_d.
  rewrite Hd in Hdry. rewrite Hr in Hreal.
  destruct (invoke_spec engine clock cfg_r (PathOps.basename folder_path)
              wf_r s2) as (b & d & s3 & Hinv & Hev & _).
  rewrite Hinv in Hreal. injection Hreal as _ <-.
  exists (engine_cmd cfg_r wf_r), (events s2). split; [|exact Hev].
  assert (Hcmd : engine_cmd cfg_r wf_r = engine_cmd cfg_d wf_r).
  { unfold engine_cmd, docker_cmd, local_cmd.
    now rewrite <- Hdocker, <- Himg, <- Hscript. }
  rewrite Hcmd. unfold engine_cmd.
  unfold bind, print_info, print, ret in Hdry.
  destruct (use_docker cfg_d); inversion Hdry; subst;
    cbn [fs ticks log events results];
    [rewrite <- dry_run_docker_text_joins
    |rewrite <- dry_run_local_text_joins];
    apply in_or_app; right; left; reflexivity.
Qed.

End Coverage.

(* ------------------------------------------------------------------ *)
(** ** The further properties at the sample inputs *)



(** The inputs [A] and then [notes.txt], [B]. *)
Lemma discovery_of_concatenated_inputs_witness :
  let s := initial_state Demo.tree in
  resolve_paths [["A"]] [] s = (Ret [["A"]], s) /\
  resolve_paths [["notes.txt"]; ["B"]] [] s = (Ret [["B"]], s) /\
  resolve_paths ([["A"]] ++ [["notes.txt"]; ["B"]]) [] s
    = (Ret ([["A"]] ++ [["B"]]), s).
Proof.
  intros s.
  assert (H1 : resolve_paths [["A"]] [] s = (Ret [["A"]], s))
    by (vm_compute; reflexivity).
  assert (H2 : resolve_paths [["notes.txt"]; ["B"]] [] s = (Ret [["B"]], s))
    by (vm_compute; reflexivity).
  split; [exact H1|]. split; [exact H2|].
  exact (discovery_of_concatenated_inputs _ _ _ _ _ _ _ H1 H2).
Defined.

(** Inputs that are a regular file and a missing path. *)
Lemma main_without_folders_leaves_no_trace_witness :
  let args := Demo.args false false false [["notes.txt"]; ["zz"]] in
  let s := initial_state Demo.tree in
  exists s',
    main Demo.engine Demo.clock args [] s = (Exit 1%Z, s') /\
    fs s' = Demo.tree /\ events s' = [] /\ results s' = [] /\
    log s' = [(WARNING, TPathMissing ["zz"]); (ERROR, TNoValidAtAll)].
Proof.
  intros args s.
  assert (H : resolve_paths (a_paths args) [] s
              = (Ret [], snd (resolve_paths (a_paths args) [] s)))
    by (vm_compute; reflexivity).
  destruct (main_without_folders_leaves_no_trace
              Demo.engine Demo.clock args [] s _ H)
    as (s' & Hmain & Hfs & Hev & Hres & Hlog).
  exists s'. repeat split; auto.
Defined.

(** The folders resolved from [A] and [B] pass the validation. *)
Lemma resolved_folders_pass_validation_witness :
  let args := Demo.args false false false [["A"]; ["B"]] in
  let s := initial_state Demo.tree in
  let cfg := config_of args [["A"]; ["B"]] in
  fst (resolve_paths (a_paths args) [] s) = Ret [["A"]; ["B"]] /\
  fst (init cfg s) = Ret tt /\
  fst (validate_folders cfg (snd (init cfg s))) = Ret true.
Proof.
  intros args s cfg.
  assert (H1 : resolve_paths (a_paths args) [] s
               = (Ret [["A"]; ["B"]], s))
    by (vm_compute; reflexivity).
  assert (H2 : init cfg s = (Ret tt, snd (init cfg s)))
    by (vm_compute; reflexivity).
  split; [now rewrite H1|]. split; [now rewrite H2|].
  pose proof (resolved_folders_pass_validation
                args (a_paths args) s _ s _ H1 H2) as H3.
  change (validate_folders cfg (snd (init cfg s))
          = (Ret true, snd (init cfg s))) in H3.
  now rewrite H3.
Defined.

(** The failed run of the engine on [A], timed by a clock that does not
    go back. *)
Lemma process_folder_outcome_witness :
  let cfg := Demo.cfg false false false [["A"]] in
  let res := process_folder Demo.engine Demo.clock cfg ["A"]
               (initial_state Demo.tree) in
  fst res = Ret (false, "A", 1%Z) /\
  "A" = PathOps.basename ["A"] /\
  (1 = Demo.clock 1 - Demo.clock 0)%Z /\ (0 <= 1)%Z.
Proof.
  intros cfg res.
  assert (H : res = (Ret (false, "A", 1%Z), snd res))
    by (vm_compute; reflexivity).
  split; [now rewrite H|].
  destruct (process_folder_outcome Demo.engine Demo.clock cfg ["A"]
              (initial_state Demo.tree) false "A" 1%Z (snd res) H)
    as (Hn & Hd & _ & Hpos).
  split; [exact Hn|]. split; [exact Hd|].
  apply Hpos. intros k. unfold Demo.clock. lia.
Defined.

(** The executor on [X_original]: three actions, none of them a write. *)
Lemma process_folder_frame_witness :
  let cfg := Demo.cfg false false false [["X_original"]] in
  let s := initial_state Demo.tree in
  let res := process_folder Demo.engine Demo.clock cfg ["X_original"] s in
  results (snd res) = [] /\
  exists new,
    events (snd res) = events s ++ new /\
    forallb (fun e => negb (is_write e)) new = true.
Proof.
  intros cfg s res.
  assert (H : process_folder Demo.engine Demo.clock cfg ["X_original"] s
              = (fst res, snd res))
    by (vm_compute; reflexivity).
  destruct (process_folder_frame Demo.engine Demo.clock cfg
              ["X_original"] s _ _ H) as (R & _ & W).
  split; [exact R | exact W].
Defined.

(** Sequential mode with [--continue-on-error] on [A] (fails) and [B]. *)
Lemma sequential_results_follow_folders_witness :
  let cfg := Demo.cfg false false true [["A"]; ["B"]] in
  let s := initial_state Demo.tree in
  let res := process_folders_sequential Demo.engine Demo.clock cfg s in
  fst res = Ret tt /\
  exists extra before,
    results (snd res) = results s ++ extra /\
    map r_folder extra = ["A"; "B"] /\
    log (snd res) =
      before ++
      [(INFO, TSequentialDone
                (count_where r_success extra)
                (count_where (fun r => negb (r_success r)) extra))].
Proof.
  intros cfg s res.
  assert (H : process_folders_sequential Demo.engine Demo.clock cfg s
              = (Ret tt, snd res))
    by (vm_compute; reflexivity).
  split; [unfold res; now rewrite H|].
  exact (sequential_results_follow_folders
           Demo.engine Demo.clock cfg s _ H).
Defined.

(** Sequential mode, fail-fast, on the folder [B] alone. *)
Lemma fail_fast_report_has_no_failure_witness :
  let cfg := Demo.cfg false false false [["B"]] in
  let s := initial_state Demo.tree in
  let res := run Demo.engine Demo.clock cfg [] s in
  exists sm,
    Fs.lookup ["results"; "processing_results.json"] (fs (snd res))
      = Some (File (Report sm)) /\
    failed sm = 0%nat /\ successful sm = total_folders sm.
Proof.
  intros cfg s res.
  assert (Hrun : run Demo.engine Demo.clock cfg [] s = (fst res, snd res))
    by (vm_compute; reflexivity).
  destruct (fail_fast_report_has_no_failure Demo.engine Demo.clock cfg []
              s _ _ eq_refl eq_refl eq_refl Hrun)
    as (new & Hev & Hall).
  assert (Hfile :
    { sm | Fs.lookup ["results"; "processing_results.json"] (fs (snd res))
           = Some (File (Report sm)) /\
           In (EvWrite ["results"; "processing_results.json"] (Report sm))
              (events (snd res)) }).
  { vm_compute. eexists. split; [reflexivity|].
    do 2 right. left. reflexivity. }
  destruct Hfile as (sm & Hlook & Hin).
  exists sm. split; [exact Hlook|].
  rewrite Hev in Hin. exact (Hall _ _ Hin).
Defined.

(** A sequential dry run on [A] and [B]. *)
Lemma sequential_dry_run_report_witness :
  let cfg := Demo.cfg false true false [["A"]; ["B"]] in
  let s := initial_state Demo.tree in
  let res := run Demo.engine Demo.clock cfg [] s in
  exists sm,
    Fs.lookup ["results"; "processing_results.json"] (fs (snd res))
      = Some (File (Report sm)) /\
    failed sm = 0%nat /\ successful sm = total_folders sm /\
    total_duration sm = 0%Z.
Proof.
  intros cfg s res.
  assert (Hrun : run Demo.engine Demo.clock cfg [] s = (fst res, snd res))
    by (vm_compute; reflexivity).
  destruct (sequential_dry_run_report Demo.engine Demo.clock cfg []
              s _ _ eq_refl eq_refl eq_refl Hrun)
    as (new & Hev & Hall).
  assert (Hfile :
    { sm | Fs.lookup ["results"; "processing_results.json"] (fs (snd res))
           = Some (File (Report sm)) /\
           In (EvWrite ["results"; "processing_results.json"] (Report sm))
              (events (snd res)) }).
  { vm_compute. eexists. split; [reflexivity|].
    do 2 right. left. reflexivity. }
  destruct Hfile as (sm & Hlook & Hin).
  exists sm. split; [exact Hlook|].
  rewrite Hev in Hin. exact (Hall _ _ Hin).
Defined.

(** A dry run of the pool on [X_original] and [A]. *)
Lemma dry_run_never_invokes_witness :
  let cfg := Demo.cfg true true false [["X_original"]; ["A"]] in
  let s := initial_state Demo.tree in
  let res := run Demo.engine Demo.clock cfg [1]%nat s in
  dry_run cfg = true /\
  exists new,
    events (snd res) = events s ++ new /\
    forallb is_mkdir_or_write new = true.
Proof.
  intros cfg s res. split; [reflexivity|].
  assert (Hrun : run Demo.engine Demo.clock cfg [1]%nat s
                 = (fst res, snd res))
    by (vm_compute; reflexivity).
  exact (dry_run_never_invokes Demo.engine Demo.clock cfg [1]%nat s _ _
           eq_refl Hrun).
Defined.

(** Three folders in the pool. *)
Lemma pool_collects_each_folder_once_witness :
  let cfg := Demo.cfg true false false [["A"]; ["B"]; ["X_original"]] in
  let s := initial_state Demo.tree in
  exists order,
    Permutation order [["A"]; ["B"]; ["X_original"]] /\
    process_folders_parallel Demo.engine Demo.clock cfg [2; 0; 1]%nat s
      = (print_info (TStartParallel 3) ;;
         collect_all Demo.engine Demo.clock cfg order) s.
Proof.
  intros cfg s.
  apply (pool_collects_each_folder_once Demo.engine Demo.clock cfg
           [2; 0; 1]%nat s).
  discriminate.
Defined.

(** A first report in an empty output directory. *)
Lemma save_results_round_trip_witness :
  let cfg := Demo.cfg false false false [["A"]] in
  let s := initial_state (Dir [("results", Dir [])]) in
  exists s',
    save_results Demo.clock cfg s = (Ret tt, s') /\
    Fs.lookup (results_file cfg) (fs s')
      = Some (File (Report (summary_of cfg [] (Demo.clock 0)))) /\
    results s' = [].
Proof.
  intros cfg s.
  apply (proj1 (save_results_round_trip Demo.clock cfg s)); reflexivity.
Defined.

(** The unit [X_original], dry and real. *)
Lemma dry_run_prints_the_command_run_witness :
  let cfg_d := Demo.cfg false true false [["X_original"]] in
  let cfg_r := Demo.cfg false false false [["X_original"]] in
  let s := initial_state Demo.tree in
  let dry := process_folder Demo.engine Demo.clock cfg_d ["X_original"] s in
  let real := process_folder Demo.engine Demo.clock cfg_r ["X_original"] s in
  exists cmd before,
    In (INFO, TDryRunCommand (String.concat " " cmd)) (log (snd dry)) /\
    events (snd real) = before ++ [EvRun cmd].
Proof.
  intros cfg_d cfg_r s dry real.
  assert (Hd : process_folder Demo.engine Demo.clock cfg_d ["X_original"] s
               = (Ret (true, "X_original", 0%Z), snd dry))
    by (vm_compute; reflexivity).
  assert (Hr : process_folder Demo.engine Demo.clock cfg_r ["X_original"] s
               = (Ret (true, "X_original", 1%Z), snd real))
    by (vm_compute; reflexivity).
  exact (dry_run_prints_the_command_run Demo.engine Demo.clock
           cfg_d cfg_r ["X_original"] s _ _ s _ _
           eq_refl eq_refl eq_refl eq_refl eq_refl eq_refl Hd Hr).
Defined.
